(** * The PnPify SDK generator: integrations file, script template,
    wrapper bookkeeping and the [generateSdk] driver

  Shallow embedding of [packages/yarnpkg-pnpify/sources/generateSdk.ts].
  JavaScript values are a tree-shaped inductive type; objects that the
  source mutates in place ([this] of [IntegrationsFile] and [Wrapper], the
  filesystem, the report) are threaded explicitly; a [throw] is the [Throw]
  outcome of a call.  The collaborators that live outside the file (the
  filesystem provider, the Syml parser and printer, the path utilities, the
  colour and case helpers) are the fields of the class [Host], and the SDK
  tables those of the class [Sdks]; every definition and theorem is stated
  for an arbitrary host and arbitrary tables. The module [Sample] gives one
  host and one set of tables, on which the definitions run. *)

From Stdlib Require Import Ascii DecimalString.
From stdpp Require Import base strings list gmap.

Set Warnings "-register-all".

Local Open Scope string_scope.
Local Open Scope list_scope.

(** ** JavaScript values and the built-ins the source relies on *)

Module Js.

(** A number is carried by its canonical [ToString] rendering, which is all
    the source ever observes of one (string interpolation and
    SameValueZero). Functions and symbols do not occur in parsed data. *)
Inductive value : Type :=
| Undefined
| Null
| Boolean (b : bool)
| Number (repr : string)
| Str (s : string)
| Array (elems : list value)
| Object (fields : list (string * value)).

(** Outcome of a call: a returned value or a thrown exception. *)
Inductive outcome (E A : Type) : Type :=
| Return (a : A)
| Throw (e : E).
Arguments Return {E A} a.
Arguments Throw {E A} e.

(** [typeof v] *)
Definition typeof (v : value) : string :=
  match v with
  | Undefined => "undefined"
  | Null => "object"
  | Boolean _ => "boolean"
  | Number _ => "number"
  | Str _ => "string"
  | Array _ => "object"
  | Object _ => "object"
  end.

(** [v === null] *)
Definition is_null (v : value) : bool :=
  match v with Null => true | _ => false end.

(** [Array.isArray(v)] *)
Definition Array_isArray (v : value) : bool :=
  match v with Array _ => true | _ => false end.

(** Own-property lookup in the field list of an object literal. *)
Fixpoint lookup_field (k : string) (fs : list (string * value)) : option value :=
  match fs with
  | [] => None
  | (k', v) :: rest => if String.eqb k k' then Some v else lookup_field k rest
  end.

(** [v.k] on a value that passed the object test: a missing property reads
    as [undefined]; arrays carry indices only. *)
Definition get (k : string) (v : value) : value :=
  match v with
  | Object fs => default Undefined (lookup_field k fs)
  | _ => Undefined
  end.

(** [data[k] = v] on a plain object: overwrite in place or append. *)
Fixpoint set_field (k : string) (v : value) (fs : list (string * value))
  : list (string * value) :=
  match fs with
  | [] => [(k, v)]
  | (k', v') :: rest =>
      if String.eqb k k' then (k', v) :: rest else (k', v') :: set_field k v rest
  end.

(** [xs.join(sep)] on strings. *)
Fixpoint join (sep : string) (xs : list string) : string :=
  match xs with
  | [] => ""
  | [x] => x
  | x :: rest => x +:+ sep +:+ join sep rest
  end.

(** [ToString]: how a value appears inside a template literal. Inside
    [Array.prototype.join] the elements [undefined] and [null] render as
    the empty string. *)
Fixpoint to_string (v : value) : string :=
  match v with
  | Undefined => "undefined"
  | Null => "null"
  | Boolean true => "true"
  | Boolean false => "false"
  | Number repr => repr
  | Str s => s
  | Array elems =>
      join "," (map (fun x => match x with
                              | Undefined | Null => ""
                              | _ => to_string x
                              end) elems)
  | Object _ => "[object Object]"
  end.

Definition join_item (v : value) : string :=
  match v with
  | Undefined | Null => ""
  | _ => to_string v
  end.

(** [xs.join(sep)] on an array of values. *)
Definition Array_join (sep : string) (xs : list value) : string :=
  join sep (map join_item xs).

(** SameValueZero, the equality of [Set] and [Map] keys. Primitives compare
    by value. An array or object is equal to itself only; a tree of values
    records no identity, and here every occurrence of an array or object is
    taken as an object of its own. Data in which one object occurs twice
    (a YAML alias) is therefore outside the model; what is stated about
    sets of values is stated for primitive elements or for the elements
    [load] accepts, which are strings. *)
Definition sameValueZero (a b : value) : bool :=
  match a, b with
  | Undefined, Undefined => true
  | Null, Null => true
  | Boolean x, Boolean y => Bool.eqb x y
  | Number x, Number y => String.eqb x y
  | Str x, Str y => String.eqb x y
  | _, _ => false
  end.

(** A [Set] or the key list of a [Map], in insertion order. *)
Section Collections.
Context {A : Type} (same : A -> A -> bool).

(** [s.has(x)] *)
Definition has (x : A) (s : list A) : bool := existsb (same x) s.

(** [s.add(x)] *)
Definition add (s : list A) (x : A) : list A :=
  if has x s then s else s ++ [x].

(** [new Set(xs)] *)
Definition Set_from (xs : list A) : list A := fold_left add xs [].
End Collections.

(** Truthiness of a string: only the empty string is falsy. *)
Definition truthy (s : string) : bool :=
  match s with EmptyString => false | _ => true end.

End Js.

Import Js.

(** ** Exceptions and the state-and-exception monad

    A JavaScript call may mutate the objects it reaches and then throw; the
    mutation stays. [M S A] is a computation over a store [S] that returns
    an [A] or throws, and in both cases hands back the store. *)

Inductive exn_class : Type :=
| ErrorClass        (* [new Error(...)] *)
| UsageErrorClass   (* clipanion's [UsageError] *)
| ForeignClass.     (* thrown by a collaborator *)

Record exn : Type := Exn { class : exn_class; message : string }.

Definition M (S A : Type) : Type := S -> outcome exn A * S.

Definition ret {S A} (a : A) : M S A := fun s => (Return a, s).

Definition throw {S A} (e : exn) : M S A := fun s => (Throw e, s).

Definition bind {S A B} (m : M S A) (k : A -> M S B) : M S B :=
  fun s =>
    match m s with
    | (Return a, s') => k a s'
    | (Throw e, s') => (Throw e, s')
    end.

Definition modify {S} (f : S -> S) : M S unit := fun s => (Return tt, f s).

Definition gets {S A} (f : S -> A) : M S A := fun s => (Return (f s), s).

Notation "x <- m ;; k" := (bind m (fun x => k))
  (at level 100, m at next level, right associativity).
Notation "m ;;; k" := (bind m (fun _ => k))
  (at level 100, right associativity).

(** [for (const x of xs) body(x)] *)
Fixpoint for_of {S A} (xs : list A) (body : A -> M S unit) : M S unit :=
  match xs with
  | [] => ret tt
  | x :: rest => body x ;;; for_of rest body
  end.

(** ** The collaborators of the generator

    Paths are strings. The filesystem provider is an abstract store [FS]
    with the operations of [xfs] the source calls. Reading a file may
    throw. A call that changes the filesystem is given by its effect where
    it succeeds; for the calls of [Wrapper.writeFile] and
    [Wrapper.writeBinary], whose bookkeeping depends on how they end, the
    fields [..._rejects] tell on which filesystems the call rejects, and
    with what. *)

Abbreviation PortablePath := string (only parsing).
Abbreviation NativePath := string (only parsing).

Class Host : Type := {
  FS : Type;
  (* @yarnpkg/fslib: ppath and npath *)
  ppath_join : list PortablePath -> PortablePath;
  ppath_dirname : PortablePath -> PortablePath;
  ppath_relative : PortablePath -> PortablePath -> PortablePath;
  npath_join : list NativePath -> NativePath;
  npath_toPortablePath : NativePath -> PortablePath;
  npath_fromPortablePath : PortablePath -> NativePath;
  (* @yarnpkg/fslib: xfs *)
  existsSync : PortablePath -> FS -> bool;
  lstatSync_isSymbolicLink : PortablePath -> FS -> bool;
  removePromise : PortablePath -> FS -> FS;
  mkdirPromise_recursive : PortablePath -> FS -> FS;
  readFilePromise : PortablePath -> FS -> outcome exn string;
  writeFilePromise : PortablePath -> string -> FS -> FS;
  writeJsonPromise : PortablePath -> value -> FS -> FS;
  changeFilePromise_automaticNewlines : PortablePath -> string -> FS -> FS;
  chmodPromise : PortablePath -> N -> FS -> FS;
  mkdirPromise_recursive_rejects : PortablePath -> FS -> option exn;
  writeFilePromise_rejects : PortablePath -> FS -> option exn;
  chmodPromise_rejects : PortablePath -> FS -> option exn;
  (* @yarnpkg/parsers *)
  parseSyml : string -> outcome exn value;
  stringifySyml : value -> string;
  (* JSON.stringify on a string, ./dynamicRequire, lodash, chalk *)
  JSON_stringify : string -> string;
  dynamicRequire : NativePath -> value;
  startCase : string -> string;
  capitalize : string -> string;
  chalk_green : string -> string;
  chalk_yellow : string -> string;
}.

(** The dependency resolution provider, as far as the source queries it. *)
Record PackageInformation : Type := {
  packageLocation : NativePath;
  packageDependencies : gmap string string;
}.

Record PnpApi : Type := {
  (* [getPackageInformation(topLevel)!] *)
  topLevelInformation : PackageInformation;
  (* [getPackageInformation(getLocator(name, reference))]; a name without a
     reference among the dependencies of the top level finds no package *)
  getPackageInformation : string -> string -> option PackageInformation;
  (* [resolveRequest(`pnpapi`, null)!] *)
  resolveRequest_pnpapi : NativePath;
}.

(** [configuration.format(text, FormatType.PATH)] *)
Record Configuration : Type := { format_PATH : string -> string }.

(** ** Constants *)

Definition LF : string := String (Ascii.ascii_of_nat 10) "".

Definition OLD_SDK_FOLDER : PortablePath := ".vscode/pnpify".
Definition SDK_FOLDER : PortablePath := ".yarn/sdks".
Definition INTEGRATIONS_FILE : string := "integrations.yml".

(** ** String built-ins

    Strings are the UTF-8 encodings of the JavaScript strings. White space
    of [String.prototype.trim] is the WhiteSpace and LineTerminator of
    ECMAScript: TAB, LF, VT, FF, CR, SP, and beyond ASCII U+00A0, U+1680,
    U+2000 to U+200A, U+2028, U+2029, U+202F, U+205F, U+3000 and U+FEFF.
    The line terminators, after which [^] of a multiline regular expression
    matches, are LF, CR, U+2028 and U+2029. *)

Definition is_white_space (c : ascii) : bool :=
  match Ascii.nat_of_ascii c with
  | 9 | 10 | 11 | 12 | 13 | 32 => true
  | _ => false
  end.

Definition is_line_terminator (c : ascii) : bool :=
  match Ascii.nat_of_ascii c with
  | 10 | 13 => true
  | _ => false
  end.

(** U+00A0 is the two bytes C2 A0. *)
Definition is_white_space2 (c d : ascii) : bool :=
  match Ascii.nat_of_ascii c, Ascii.nat_of_ascii d with
  | 194, 160 => true
  | _, _ => false
  end.

(** U+2028 and U+2029 are the bytes E2 80 A8 and E2 80 A9. *)
Definition is_line_terminator3 (c d e : ascii) : bool :=
  match Ascii.nat_of_ascii c, Ascii.nat_of_ascii d, Ascii.nat_of_ascii e with
  | 226, 128, 168 | 226, 128, 169 => true
  | _, _, _ => false
  end.

(** The white space of three bytes: U+1680 (E1 9A 80), U+2000 to U+200A
    (E2 80 80 to E2 80 8A), U+2028, U+2029, U+202F (E2 80 AF), U+205F
    (E2 81 9F), U+3000 (E3 80 80) and U+FEFF (EF BB BF). *)
Definition is_white_space3 (c d e : ascii) : bool :=
  is_line_terminator3 c d e ||
  match Ascii.nat_of_ascii c, Ascii.nat_of_ascii d with
  | 225, 154 => Nat.eqb (Ascii.nat_of_ascii e) 128
  | 226, 128 =>
      (Nat.leb 128 (Ascii.nat_of_ascii e) && Nat.leb (Ascii.nat_of_ascii e) 138)
      || Nat.eqb (Ascii.nat_of_ascii e) 175
  | 226, 129 => Nat.eqb (Ascii.nat_of_ascii e) 159
  | 227, 128 => Nat.eqb (Ascii.nat_of_ascii e) 128
  | 239, 187 => Nat.eqb (Ascii.nat_of_ascii e) 191
  | _, _ => false
  end.

(** [s.trimStart()] *)
Fixpoint trimStart (s : string) : string :=
  match s with
  | String c rest =>
      if is_white_space c then trimStart rest
      else
        match rest with
        | String d rest2 =>
            if is_white_space2 c d then trimStart rest2
            else
              match rest2 with
              | String e rest3 => if is_white_space3 c d e then trimStart rest3 else s
              | EmptyString => s
              end
        | EmptyString => s
        end
  | EmptyString => EmptyString
  end.

(** [s.trimEnd()]: the string is cut where what follows is white space
    only. *)
Fixpoint trimEnd (s : string) : string :=
  match s with
  | String c rest =>
      match trimStart s with
      | EmptyString => EmptyString
      | _ => String c (trimEnd rest)
      end
  | EmptyString => EmptyString
  end.

(** [s.trim()] *)
Definition trim (s : string) : string := trimEnd (trimStart s).

(** [s.replace(/^ {4}/gm, ``)]: four spaces at the start of a line are
    removed, once per line. [bol] tells whether the scan is at the start of
    a line. *)
Fixpoint strip_indent (bol : bool) (s : string) : string :=
  match s with
  | EmptyString => EmptyString
  | String c rest =>
      let keep :=
        match rest with
        | String d (String e rest3) =>
            if is_line_terminator3 c d e
            then String c (String d (String e (strip_indent true rest3)))
            else String c (strip_indent (is_line_terminator c) rest)
        | _ => String c (strip_indent (is_line_terminator c) rest)
        end in
      if bol then
        match s with
        | String " " (String " " (String " " (String " " rest'))) =>
            strip_indent false rest'
        | _ => keep
        end
      else keep
  end.

Definition replace_leading_indent (s : string) : string := strip_indent true s.

(** [s.split(sep)] for a one-character separator. *)
Fixpoint split (sep : ascii) (s : string) : list string :=
  match s with
  | EmptyString => [EmptyString]
  | String c rest =>
      if Ascii.eqb c sep then EmptyString :: split sep rest
      else match split sep rest with
           | word :: words => String c word :: words
           | [] => [String c EmptyString]
           end
  end.

(** [getDisplayName] *)
Definition getDisplayName `{Host} (name : string) : string :=
  join " " (map capitalize (split " " (startCase name))).

(** ** The script template *)

Record TemplateOptions : Type := {
  setupEnv : option bool;
  usePnpify : option bool;
  wrapModule : option string;
}.

(** [options = {}] *)
Definition no_options : TemplateOptions :=
  {| setupEnv := None; usePnpify := None; wrapModule := None |}.

(** The lines emitted when [wrapModule] is truthy. *)
Definition wrapper_block (source : string) : list string :=
  [ "const moduleWrapper = " +:+ replace_leading_indent (trim source) +:+ LF;
    LF ].

(** The lines emitted when [setupEnv] is set. *)
Definition setup_env_block : list string :=
  [ LF;
    "  if (typeof global[`__yarnpkg_sdk_has_setup_env__`] === `undefined`) {" +:+ LF;
    "    Object.defineProperty(global, `__yarnpkg_sdk_has_setup_env__`, {configurable: true, value: true});" +:+ LF;
    LF;
    "    process.env.NODE_OPTIONS = process.env.NODE_OPTIONS || ``;" +:+ LF;
    "    process.env.NODE_OPTIONS += ` -r ${absPnpApiPath}`;" +:+ LF;
    "  }" +:+ LF ].

(** The lines emitted when [usePnpify] is set. *)
Definition use_pnpify_block : list string :=
  [ LF;
    "  if (typeof global[`__yarnpkg_sdk_is_using_pnpify__`] === `undefined`) {" +:+ LF;
    "    Object.defineProperty(global, `__yarnpkg_sdk_is_using_pnpify__`, {configurable: true, value: true});" +:+ LF;
    LF;
    "    process.env.NODE_OPTIONS += ` -r ${pnpifyResolution}`;" +:+ LF;
    LF;
    "    // Apply PnPify to the current process" +:+ LF;
    "    absRequire(`@yarnpkg/pnpify`).patchFs();" +:+ LF;
    "  }" +:+ LF ].

(** The last line of the script. *)
Definition export_line (wrapped : bool) (module : string) : string :=
  if wrapped then "module.exports = moduleWrapper(absRequire(`" +:+ module +:+ "`));" +:+ LF
  else "module.exports = absRequire(`" +:+ module +:+ "`);" +:+ LF.

(** [wrapModule ? ... : ...]: [undefined] and the empty string are falsy. *)
Definition wrapModule_truthy (wrapModule : option string) : bool :=
  match wrapModule with
  | Some source => truthy source
  | None => false
  end.

(** The array of [TEMPLATE], before [.join(``)]. *)
Definition TEMPLATE_lines `{Host} (relPnpApiPath : PortablePath) (module : string)
    (options : TemplateOptions) : list string :=
  let setupEnv := default false (setupEnv options) in
  let usePnpify := default false (usePnpify options) in
  let wrapModule := wrapModule options in
  [ "#!/usr/bin/env node" +:+ LF;
    LF;
    "const {existsSync} = require(`fs`);" +:+ LF;
    "const {createRequire, createRequireFromPath} = require(`module`);" +:+ LF;
    "const {resolve} = require(`path`);" +:+ LF;
    LF;
    "const relPnpApiPath = " +:+ JSON_stringify (npath_fromPortablePath relPnpApiPath) +:+ ";" +:+ LF;
    LF;
    "const absPnpApiPath = resolve(__dirname, relPnpApiPath);" +:+ LF;
    "const absRequire = (createRequire || createRequireFromPath)(absPnpApiPath);" +:+ LF;
    LF ]
  ++ (if wrapModule_truthy wrapModule then wrapper_block (default "" wrapModule) else [])
  ++ [ "if (existsSync(absPnpApiPath)) {" +:+ LF;
       "  if (!process.versions.pnp) {" +:+ LF;
       "    // Setup the environment to be able to require " +:+ module +:+ LF;
       "    require(absPnpApiPath).setup();" +:+ LF;
       "  }" +:+ LF ]
  ++ (if setupEnv then setup_env_block else [])
  ++ (if usePnpify then use_pnpify_block else [])
  ++ [ "}" +:+ LF;
       LF;
       "// Defer to the real " +:+ module +:+ " your application uses" +:+ LF;
       export_line (wrapModule_truthy wrapModule) module ].

(** [TEMPLATE] *)
Definition TEMPLATE `{Host} (relPnpApiPath : PortablePath) (module : string)
    (options : TemplateOptions) : string :=
  join "" (TEMPLATE_lines relPnpApiPath module options).

(** ** Wrapper *)

Record Wrapper : Type := {
  name : PortablePath;
  pnpApi : PnpApi;
  target : PortablePath;
  paths : gmap string string;
}.

(** [new Wrapper(name, {pnpApi, target})] *)
Definition new_Wrapper (name : PortablePath) (pnpApi : PnpApi) (target : PortablePath)
  : Wrapper :=
  {| name := name; pnpApi := pnpApi; target := target; paths := ∅ |}.

Definition register_path (rel proj : PortablePath) (this : Wrapper) : Wrapper :=
  {| name := name this; pnpApi := pnpApi this; target := target this;
     paths := <[rel := proj]> (paths this) |}.

(** The methods of a wrapper run over the wrapper itself and the
    filesystem. *)
Definition on_fs `{Host} (f : FS -> FS) : M (Wrapper * FS) unit :=
  modify (fun s => (s.1, f s.2)).

(** A call of [xfs] that rejects on some filesystems: it throws there and
    leaves the store as it found it, and has its effect elsewhere. *)
Definition await_fs `{Host} (rejects : FS -> option exn) (effect : FS -> FS)
  : M (Wrapper * FS) unit :=
  fun s =>
    match rejects s.2 with
    | Some e => (Throw e, s)
    | None => (Return tt, (s.1, effect s.2))
    end.

Definition on_this `{Host} (f : Wrapper -> Wrapper) : M (Wrapper * FS) unit :=
  modify (fun s => (f s.1, s.2)).

(** [Wrapper.writeManifest] *)
Definition writeManifest `{Host} : M (Wrapper * FS) unit :=
  this <- gets fst ;;
  let absWrapperPath := ppath_join [target this; name this; "package.json"] in
  let topLevelInformation := topLevelInformation (pnpApi this) in
  let dependencyReference := packageDependencies topLevelInformation !! name this in
  match dependencyReference ≫= getPackageInformation (pnpApi this) (name this) with
  | None =>
      throw (Exn ErrorClass ("Assertion failed: Package " +:+ name this
                             +:+ " isn't a dependency of the top-level"))
  | Some pkgInformation =>
      let manifest := dynamicRequire (npath_join [packageLocation pkgInformation; "package.json"]) in
      on_fs (mkdirPromise_recursive (ppath_dirname absWrapperPath)) ;;;
      on_fs (writeJsonPromise absWrapperPath
               (Object [ ("name", Str (name this));
                         ("version", Str (to_string (get "version" manifest) +:+ "-pnpify"));
                         ("main", get "main" manifest);
                         ("type", Str "commonjs") ]))
  end.

(** [Wrapper.writeFile] *)
Definition writeFile `{Host} (relPackagePath : PortablePath) (options : TemplateOptions)
  : M (Wrapper * FS) PortablePath :=
  this <- gets fst ;;
  let topLevelInformation := topLevelInformation (pnpApi this) in
  let projectRoot := npath_toPortablePath (packageLocation topLevelInformation) in
  let absWrapperPath := ppath_join [target this; name this; relPackagePath] in
  let relProjectPath := ppath_relative projectRoot absWrapperPath in
  let absPnpApiPath := npath_toPortablePath (resolveRequest_pnpapi (pnpApi this)) in
  let relPnpApiPath := ppath_relative (ppath_dirname absWrapperPath) absPnpApiPath in
  await_fs (mkdirPromise_recursive_rejects (ppath_dirname absWrapperPath))
           (mkdirPromise_recursive (ppath_dirname absWrapperPath)) ;;;
  await_fs (writeFilePromise_rejects absWrapperPath)
           (writeFilePromise absWrapperPath
              (TEMPLATE relPnpApiPath (ppath_join [name this; relPackagePath]) options)) ;;;
  on_this (register_path relPackagePath relProjectPath) ;;;
  ret absWrapperPath.

(** [Wrapper.writeBinary]; [0o755] is 493. *)
Definition writeBinary `{Host} (relPackagePath : PortablePath) (options : TemplateOptions)
  : M (Wrapper * FS) unit :=
  absPackagePath <- writeFile relPackagePath options ;;
  await_fs (chmodPromise_rejects absPackagePath) (chmodPromise absPackagePath 493%N).

(** [Wrapper.getProjectPathTo] *)
Definition getProjectPathTo (relPackagePath : PortablePath) (this : Wrapper)
  : outcome exn PortablePath :=
  match paths this !! relPackagePath with
  | None => Throw (Exn ErrorClass "Assertion failed: Expected path to have been registered")
  | Some relProjectPath => Return relProjectPath
  end.

(** A caller's use of a wrapper: the calls it makes on it, in order. *)
Inductive wrapper_call : Type :=
| call_writeManifest
| call_writeFile (relPackagePath : PortablePath) (options : TemplateOptions)
| call_writeBinary (relPackagePath : PortablePath) (options : TemplateOptions).

Definition run_call `{Host} (c : wrapper_call) : M (Wrapper * FS) unit :=
  match c with
  | call_writeManifest => writeManifest
  | call_writeFile rel options => writeFile rel options ;;; ret tt
  | call_writeBinary rel options => writeBinary rel options
  end.

(** The calls are made one after the other; a caller may catch what one of
    them throws and go on, so the store is threaded through all of them. *)
Fixpoint run_calls `{Host} (cs : list wrapper_call) (s : Wrapper * FS) : Wrapper * FS :=
  match cs with
  | [] => s
  | c :: rest => run_calls rest (run_call c s).2
  end.

(** The paths passed to [writeFile] or [writeBinary] by a list of calls. *)
Definition written_paths (cs : list wrapper_call) : list PortablePath :=
  flat_map (fun c => match c with
                     | call_writeManifest => []
                     | call_writeFile rel _ | call_writeBinary rel _ => [rel]
                     end) cs.

(** Whether a call returned. *)
Definition returned {A : Type} (r : outcome exn A) : bool :=
  match r with
  | Return _ => true
  | Throw _ => false
  end.

(** The paths whose write went through: those passed to a [writeFile] that
    returned, called by the caller or from inside [writeBinary]. *)
Fixpoint completed_writes `{Host} (cs : list wrapper_call) (s : Wrapper * FS)
  : list PortablePath :=
  match cs with
  | [] => []
  | c :: rest =>
      match c with
      | call_writeManifest => []
      | call_writeFile rel options | call_writeBinary rel options =>
          if returned (writeFile rel options s).1 then [rel] else []
      end ++ completed_writes rest (run_call c s).2
  end.

(** ** The SDK tables *)

Definition GenerateBaseWrapper `{Host} : Type := PnpApi -> PortablePath -> M FS Wrapper.

(** An integration wrapper works on the wrapper it is handed; the wrapper as
    it leaves it is the result. *)
Definition GenerateIntegrationWrapper `{Host} : Type :=
  PnpApi -> PortablePath -> Wrapper -> M FS Wrapper.

Definition GenerateDefaultWrapper `{Host} : Type := PnpApi -> PortablePath -> M FS unit.

Abbreviation SupportedSdk := string (only parsing).

(** An entry of an [IntegrationSdks] table: [[null, generator | null]] or
    [[pkgName, generator | null]]. *)
Inductive IntegrationSdk `{Host} : Type :=
| DefaultSdk (generate : option GenerateDefaultWrapper)
| PackageSdk (pkgName : SupportedSdk) (generate : option GenerateIntegrationWrapper).

Class Sdks `{Host} : Type := {
  BASE_SDKS : list (SupportedSdk * GenerateBaseWrapper);
  COC_VIM_SDKS : list IntegrationSdk;
  VSCODE_SDKS : list IntegrationSdk;
}.

Definition SUPPORTED_INTEGRATIONS `{Sdks} : list (string * list IntegrationSdk) :=
  [ ("vim", COC_VIM_SDKS); ("vscode", VSCODE_SDKS) ].

(** [map.has(key)] on a map with string keys, for a key of any type. *)
Definition Map_has {V : Type} (key : value) (m : list (string * V)) : bool :=
  has sameValueZero key (map (fun entry => Str entry.1) m).

(** ** validateIntegrations *)

Definition UNSUPPORTED_PREFIX : string :=
  "No supported integrations with the following names could be found: ".

Definition UNSUPPORTED_GUIDANCE : string :=
  ". Run `yarn pnpify --sdk -h` to see the list of supported integrations.".

(** The identifiers the loop of [validateIntegrations] pushes. *)
Definition unsupportedIntegrations `{Sdks} (integrations : list value) : list value :=
  List.filter (fun integration => negb (Map_has integration SUPPORTED_INTEGRATIONS))
              integrations.

Definition validateIntegrations `{Sdks} (integrations : list value) : outcome exn unit :=
  let unsupported := unsupportedIntegrations integrations in
  if (0 <? length unsupported)%nat then
    Throw (Exn UsageErrorClass
             (UNSUPPORTED_PREFIX +:+ Array_join ", " unsupported +:+ UNSUPPORTED_GUIDANCE))
  else Return tt.

(** ** IntegrationsFile *)

Record IntegrationsFile : Type := {
  integrations : list value;   (* a [Set], in insertion order *)
  raw : value;
}.

(** [new IntegrationsFile()] *)
Definition new_IntegrationsFile : IntegrationsFile :=
  {| integrations := []; raw := Object [] |}.

Definition set_raw (data : value) (this : IntegrationsFile) : IntegrationsFile :=
  {| integrations := integrations this; raw := data |}.

Definition set_integrations (s : list value) (this : IntegrationsFile) : IntegrationsFile :=
  {| integrations := s; raw := raw this |}.

Definition elements (v : value) : list value :=
  match v with Array elems => elems | _ => [] end.

(** [IntegrationsFile.load] *)
Definition load `{Sdks} (data : value) : M IntegrationsFile unit :=
  if negb (String.eqb (typeof data) "object") || is_null data then
    throw (Exn ErrorClass ("Utterly invalid integrations file data (" +:+ to_string data +:+ ")"))
  else
    modify (set_raw data) ;;;
    if Array_isArray (get "integrations" data) then
      modify (set_integrations (Set_from sameValueZero (elements (get "integrations" data)))) ;;;
      this <- gets id ;;
      match validateIntegrations (integrations this) with
      | Return _ => ret tt
      | Throw e => throw e
      end
    else ret tt.

(** [IntegrationsFile.loadFile], reading from the filesystem [fs]. *)
Definition loadFile `{Sdks} (path : PortablePath) (fs : FS) : M IntegrationsFile unit :=
  match readFilePromise path fs with
  | Throw e => throw e
  | Return content =>
      match parseSyml (if truthy content then content else "{}") with
      | Throw error =>
          throw (Exn (class error) (message error +:+ " (when parsing " +:+ path +:+ ")"))
      | Return data => load data
      end
  end.

(** [IntegrationsFile.find]: [null] is [None]. *)
Definition find `{Sdks} (projectRoot : PortablePath) (fs : FS)
  : outcome exn (option IntegrationsFile) :=
  let targetFolder := ppath_join [projectRoot; SDK_FOLDER] in
  let integrationPath := ppath_join [targetFolder; INTEGRATIONS_FILE] in
  if negb (existsSync integrationPath fs) then Return None
  else
    match loadFile integrationPath fs new_IntegrationsFile with
    | (Return _, integrationsFile) => Return (Some integrationsFile)
    | (Throw e, _) => Throw e
    end.

(** [IntegrationsFile.exportTo], on the fields of the object it is handed. *)
Definition exportTo (this : IntegrationsFile) (data : list (string * value))
  : list (string * value) :=
  if (0 <? length (integrations this))%nat then
    set_field "integrations" (Array (integrations this)) data
  else data.

Definition BANNER : string :=
  "# This file is automatically generated by PnPify." +:+ LF
  +:+ "# Manual changes will be lost!" +:+ LF +:+ LF.

(** The object [persist] hands to [stringifySyml]. *)
Definition persisted_data (this : IntegrationsFile) : value :=
  Object (exportTo this []).

(** [IntegrationsFile.persist] *)
Definition persist `{Host} (dir : PortablePath) (this : IntegrationsFile) (fs : FS) : FS :=
  let data := persisted_data this in
  let path := ppath_join [dir; INTEGRATIONS_FILE] in
  let content := BANNER +:+ stringifySyml data in
  let fs := mkdirPromise_recursive (ppath_dirname path) fs in
  changeFilePromise_automaticNewlines path content fs.

(** ** generateSdk

    The run works on the filesystem and the report. What the report
    receives is logged in order; the log also records each call of a
    generator of the tables, so that what a run invoked can be read off. *)

Inductive event : Type :=
| reportWarning (text : string)
| reportInfo (text : string)
| startTimer (label : string)
| default_wrapper_called
| base_wrapper_called (pkgName : SupportedSdk)
| integration_wrapper_called (pkgName : SupportedSdk).

Record World `{Host} : Type := { files : FS; log : list event }.

Definition emit `{Host} (e : event) : M World unit :=
  modify (fun w => {| files := files w; log := log w ++ [e] |}).

Definition update_files `{Host} (f : FS -> FS) : M World unit :=
  modify (fun w => {| files := f (files w); log := log w |}).

(** Run a generator on the files of the world. *)
Definition on_files `{Host} {A} (m : M FS A) : M World A :=
  fun w =>
    match m (files w) with
    | (r, fs) => (r, {| files := fs; log := log w |})
    end.

(** [number.toString()] of a length. *)
Definition Number_toString (n : nat) : string :=
  DecimalString.NilZero.string_of_uint (Nat.to_uint n).

Definition is_default_sdk `{Host} (sdk : IntegrationSdk) : bool :=
  match sdk with DefaultSdk _ => true | PackageSdk _ _ => false end.

Definition is_sdk_of `{Host} (pkgName : SupportedSdk) (sdk : IntegrationSdk) : bool :=
  match sdk with DefaultSdk _ => false | PackageSdk p _ => String.eqb p pkgName end.

Section GenerateSdk.
Context `{Sdks}.
Variables (pnpApi : PnpApi) (requestedIntegrations preexistingIntegrations : list string).
Variables (verbose : bool) (configuration : Configuration).

Definition projectRoot : PortablePath :=
  npath_toPortablePath (packageLocation (topLevelInformation pnpApi)).

Definition targetFolder : PortablePath := ppath_join [projectRoot; SDK_FOLDER].

Definition oldTargetFolder : PortablePath := ppath_join [projectRoot; OLD_SDK_FOLDER].

Definition allIntegrations : list string :=
  Set_from String.eqb (requestedIntegrations ++ preexistingIntegrations).

Definition OLD_FOLDER_WARNING : string :=
  "Cleaning up the existing SDK files in the old "
  +:+ format_PATH configuration OLD_SDK_FOLDER
  +:+ " folder. You might need to manually update existing references outside the "
  +:+ format_PATH configuration ".vscode"
  +:+ " folder (e.g. .gitignore)...".

(** The clean-up of the folder of the previous major (lines 274 to 279). *)
Definition clean_old_folder : M World unit :=
  w <- gets id ;;
  if existsSync oldTargetFolder (files w)
     && negb (lstatSync_isSymbolicLink oldTargetFolder (files w))
  then
    emit (reportWarning OLD_FOLDER_WARNING) ;;;
    update_files (removePromise oldTargetFolder)
  else ret tt.

Definition clean_target_folder : M World unit :=
  w <- gets id ;;
  if existsSync targetFolder (files w) then
    emit (reportWarning "Cleaning up the existing SDK files...") ;;;
    update_files (removePromise targetFolder)
  else ret tt.

Definition persist_integrations : M World unit :=
  let integrationsFile := set_integrations (map Str allIntegrations) new_IntegrationsFile in
  update_files (persist targetFolder integrationsFile).

(** [miscUtils.mapAndFilter(SUPPORTED_INTEGRATIONS, ...)] *)
Definition integrationSdks : list (list IntegrationSdk) :=
  flat_map (fun entry : string * list IntegrationSdk =>
              if negb (has String.eqb entry.1 allIntegrations) then [] else [entry.2])
           SUPPORTED_INTEGRATIONS.

Definition generate_default_wrapper (sdks : list IntegrationSdk) : M World unit :=
  match List.find is_default_sdk sdks with
  | Some (DefaultSdk (Some generateDefaultWrapper)) =>
      emit default_wrapper_called ;;;
      on_files (generateDefaultWrapper pnpApi targetFolder)
  | _ => ret tt
  end.

(** The inner loop over the tables, for the wrapper of [pkgName]. *)
Fixpoint generate_integration_wrappers (pkgName : SupportedSdk)
    (tables : list (list IntegrationSdk)) (wrapper : Wrapper) : M World Wrapper :=
  match tables with
  | [] => ret wrapper
  | sdks :: rest =>
      match List.find (is_sdk_of pkgName) sdks with
      | Some (PackageSdk _ (Some generateIntegrationWrapper)) =>
          emit (integration_wrapper_called pkgName) ;;;
          wrapper' <- on_files (generateIntegrationWrapper pnpApi targetFolder wrapper) ;;
          generate_integration_wrappers pkgName rest wrapper'
      | _ => generate_integration_wrappers pkgName rest wrapper
      end
  end.

(** The loop over [BASE_SDKS]; [skipped] is the array the loop pushes to. *)
Fixpoint generate_base_wrappers (sdks : list (SupportedSdk * GenerateBaseWrapper))
    (skipped : list string) : M World (list string) :=
  match sdks with
  | [] => ret skipped
  | (pkgName, generateBaseWrapper) :: rest =>
      let displayName := getDisplayName pkgName in
      if bool_decide (is_Some (packageDependencies (topLevelInformation pnpApi) !! pkgName)) then
        emit (reportInfo (chalk_green "✓" +:+ " " +:+ displayName)) ;;;
        emit (base_wrapper_called pkgName) ;;;
        wrapper <- on_files (generateBaseWrapper pnpApi targetFolder) ;;
        generate_integration_wrappers pkgName integrationSdks wrapper ;;;
        generate_base_wrappers rest skipped
      else
        generate_base_wrappers rest (skipped ++ [displayName])
  end.

Definition skipped_item (displayName : string) : event :=
  reportWarning (chalk_yellow "•" +:+ " " +:+ displayName
                 +:+ " (dependency not found; skipped)").

Definition skipped_count (n : nat) : event :=
  reportWarning (chalk_yellow "•" +:+ " " +:+ Number_toString n
                 +:+ " SDKs were skipped based on your root dependencies").

Definition report_skipped (skipped : list string) : M World unit :=
  if (0 <? length skipped)%nat then
    if verbose then for_of skipped (fun displayName => emit (skipped_item displayName))
    else emit (skipped_count (length skipped))
  else ret tt.

Definition generate_sdks : M World unit :=
  emit (startTimer ("Generating SDKs inside " +:+ format_PATH configuration SDK_FOLDER)) ;;;
  for_of integrationSdks generate_default_wrapper ;;;
  skipped <- generate_base_wrappers BASE_SDKS [] ;;
  report_skipped skipped.

Definition generate_settings : M World unit :=
  if (0 <? length allIntegrations)%nat then
    emit (startTimer "Generating settings") ;;;
    for_of allIntegrations (fun integration =>
      if has String.eqb integration preexistingIntegrations then
        emit (reportInfo (chalk_green "✓" +:+ " " +:+ getDisplayName integration
                          +:+ " (updated 🔼)"))
      else
        emit (reportInfo (chalk_green "✓" +:+ " " +:+ getDisplayName integration
                          +:+ " (new ✨)")))
  else ret tt.

(** What [generateSdk] does after the clean-up of the old folder. *)
Definition generateSdk_from_target : M World unit :=
  clean_target_folder ;;;
  persist_integrations ;;;
  generate_sdks ;;;
  generate_settings.

(** The body of [generateSdk], over the fields of its arguments. *)
Definition generateSdk_body : M World unit :=
  clean_old_folder ;;;
  generateSdk_from_target.

End GenerateSdk.

Record AllIntegrations : Type := {
  requestedIntegrations : list string;
  preexistingIntegrations : list string;
}.

(** The options of a run; its [report] is the log of the world. *)
Record Options : Type := {
  onlyBase : bool;
  verbose : bool;
  configuration : Configuration;
}.

(** [generateSdk]: both arguments are destructured, and the body reads
    every field but [onlyBase]. *)
Definition generateSdk `{Sdks} (pnpApi : PnpApi) (integrations : AllIntegrations)
    (options : Options) : M World unit :=
  generateSdk_body pnpApi
    (requestedIntegrations integrations) (preexistingIntegrations integrations)
    (verbose options) (configuration options).

(** ** A small host, to run the definitions on concrete inputs

    An in-memory filesystem on POSIX paths, a line-oriented printer and
    reader for the documents of the integrations file, no colours. *)

Module Sample.

Inductive node : Type :=
| File (content : string)
| Directory
| SymbolicLink (to : string).

Definition fs : Type := string -> option node.

Definition empty_fs : fs := fun _ => None.

Definition put (p : string) (n : node) (f : fs) : fs :=
  fun q => if String.eqb q p then Some n else f q.

Definition quote : string := String (Ascii.ascii_of_nat 34) "".

Fixpoint strip_prefix (pre s : string) : option string :=
  match pre, s with
  | EmptyString, _ => Some s
  | String a pre', String b s' => if Ascii.eqb a b then strip_prefix pre' s' else None
  | String _ _, EmptyString => None
  end.

Definition under (dir p : string) : bool :=
  String.eqb p dir || bool_decide (is_Some (strip_prefix (dir +:+ "/") p)).

Definition dirname (p : string) : string :=
  match rev (split "/" p) with
  | _ :: (_ :: _) as parents => join "/" (rev parents)
  | _ => "."
  end.

Definition relative (from to : string) : string :=
  default to (strip_prefix (from +:+ "/") to).

Definition read (p : string) (f : fs) : outcome exn string :=
  match f p with
  | Some (File content) => Return content
  | _ => Throw (Exn ForeignClass ("ENOENT: no such file, open " +:+ p))
  end.

Definition mkdir (p : string) (f : fs) : fs :=
  match f p with
  | None => put p Directory f
  | Some _ => f
  end.

Definition remove (p : string) (f : fs) : fs :=
  fun q => if under p q then None else f q.

(** A directory cannot be made where a file is, a file cannot be written
    over a directory or below a file, and the mode of what does not exist
    cannot be changed. *)
Definition mkdir_rejects (p : string) (f : fs) : option exn :=
  match f p with
  | Some (File _) => Some (Exn ForeignClass ("EEXIST: file already exists, mkdir " +:+ p))
  | _ => None
  end.

Definition write_rejects (p : string) (f : fs) : option exn :=
  match f p, f (dirname p) with
  | Some Directory, _ =>
      Some (Exn ForeignClass ("EISDIR: illegal operation on a directory, open " +:+ p))
  | _, Some (File _) => Some (Exn ForeignClass ("ENOTDIR: not a directory, open " +:+ p))
  | _, _ => None
  end.

Definition chmod_rejects (p : string) (f : fs) : option exn :=
  match f p with
  | None => Some (Exn ForeignClass ("ENOENT: no such file or directory, chmod " +:+ p))
  | Some _ => None
  end.

(** One [key: text] line, or a [key:] line followed by one [- item] line
    for each element. *)
Definition print_field (field : string * value) : string :=
  match field.2 with
  | Array items =>
      field.1 +:+ ":" +:+ LF
      +:+ join "" (map (fun item => "  - " +:+ to_string item +:+ LF) items)
  | v => field.1 +:+ ": " +:+ to_string v +:+ LF
  end.

Definition print (v : value) : string :=
  match v with
  | Object fields => join "" (map print_field fields)
  | _ => to_string v +:+ LF
  end.

Fixpoint split_key (line : string) : string * option string :=
  match line with
  | EmptyString => (EmptyString, None)
  | String ":" rest => (EmptyString, Some rest)
  | String c rest => let (k, v) := split_key rest in (String c k, v)
  end.

Definition is_comment (line : string) : bool :=
  match line with
  | EmptyString => true
  | String "#" _ => true
  | _ => false
  end.

(** Read the lines from the last one up: the items met so far belong to the
    next [key:] line above them. *)
Fixpoint read_lines (lines : list string) : list value * list (string * value) :=
  match lines with
  | [] => ([], [])
  | line :: rest =>
      let (items, fields) := read_lines rest in
      if is_comment line then (items, fields)
      else match strip_prefix "  - " line with
           | Some item => (Str item :: items, fields)
           | None =>
               match split_key line with
               | (key, Some EmptyString) => ([], (key, Array items) :: fields)
               | (key, Some text) => ([], (key, Str (trimStart text)) :: fields)
               | (key, None) => (items, fields)
               end
           end
  end.

Definition parse (content : string) : outcome exn value :=
  Return (Object (read_lines (split (Ascii.ascii_of_nat 10) content)).2).

Fixpoint map_string (f : ascii -> ascii) (s : string) : string :=
  match s with
  | EmptyString => EmptyString
  | String c rest => String (f c) (map_string f rest)
  end.

Definition upper (c : ascii) : ascii :=
  let n := Ascii.nat_of_ascii c in
  if (96 <? n)%nat && (n <? 123)%nat then Ascii.ascii_of_nat (n - 32) else c.

Definition lower (c : ascii) : ascii :=
  let n := Ascii.nat_of_ascii c in
  if (64 <? n)%nat && (n <? 91)%nat then Ascii.ascii_of_nat (n + 32) else c.

Definition capitalize_word (s : string) : string :=
  match s with
  | EmptyString => EmptyString
  | String c rest => String (upper c) (map_string lower rest)
  end.

Definition upperFirst (s : string) : string :=
  match s with
  | EmptyString => EmptyString
  | String c rest => String (upper c) rest
  end.

Definition start_case (s : string) : string :=
  join " " (map upperFirst (List.filter truthy (split "-" s))).

Definition host : Host := {|
  FS := fs;
  ppath_join := join "/";
  ppath_dirname := dirname;
  ppath_relative := relative;
  npath_join := join "/";
  npath_toPortablePath := id;
  npath_fromPortablePath := id;
  existsSync p f := bool_decide (is_Some (f p));
  lstatSync_isSymbolicLink p f :=
    match f p with Some (SymbolicLink _) => true | _ => false end;
  removePromise := remove;
  mkdirPromise_recursive := mkdir;
  readFilePromise := read;
  writeFilePromise p content := put p (File content);
  writeJsonPromise p v := put p (File (print v));
  changeFilePromise_automaticNewlines p content := put p (File content);
  chmodPromise p mode := id;
  mkdirPromise_recursive_rejects := mkdir_rejects;
  writeFilePromise_rejects := write_rejects;
  chmodPromise_rejects := chmod_rejects;
  parseSyml := parse;
  stringifySyml := print;
  JSON_stringify s := quote +:+ s +:+ quote;
  dynamicRequire p := Object [("version", Str "4.1.2"); ("main", Str "./lib/index.js")];
  startCase := start_case;
  capitalize := capitalize_word;
  chalk_green := id;
  chalk_yellow := id;
|}.

(** A base generator in the manner of the tables: a wrapper with its
    manifest and one binary. *)
Definition base_wrapper (pkg bin : string) : @GenerateBaseWrapper host :=
  fun pnpApi target files =>
    match (writeManifest ;;; writeBinary bin no_options) (new_Wrapper pkg pnpApi target, files) with
    | (Return _, (wrapper, files')) => (Return wrapper, files')
    | (Throw e, (_, files')) => (Throw e, files')
    end.

(** An integration generator that records where the binary went. *)
Definition settings_wrapper (bin settings : string) : @GenerateIntegrationWrapper host :=
  fun pnpApi target wrapper files =>
    match getProjectPathTo bin wrapper with
    | Return path => (Return wrapper, put settings (File path) files)
    | Throw e => (Throw e, files)
    end.

(** A default generator: one settings file, whatever the packages. *)
Definition extensions_wrapper : @GenerateDefaultWrapper host :=
  fun pnpApi target files =>
    (Return tt, put "/project/.vscode/extensions.json" (File "{}") files).

Definition sdks : @Sdks host := {|
  BASE_SDKS := [ ("eslint", base_wrapper "eslint" "bin/eslint.js");
                 ("typescript", base_wrapper "typescript" "bin/tsc") ];
  COC_VIM_SDKS := [ PackageSdk "eslint" (Some (settings_wrapper "bin/eslint.js" "/project/.vim/coc-settings.json")) ];
  VSCODE_SDKS := [ DefaultSdk (Some extensions_wrapper);
                   PackageSdk "typescript" (Some (settings_wrapper "bin/tsc" "/project/.vscode/settings.json")) ];
|}.

Definition typescript_info : PackageInformation :=
  {| packageLocation := "/project/.yarn/cache/typescript"; packageDependencies := ∅ |}.

(** A project at [/project] that depends on [typescript] only. *)
Definition project : PnpApi := {|
  topLevelInformation :=
    {| packageLocation := "/project";
       packageDependencies := {[ "typescript" := "npm:4.1.2" ]} |};
  getPackageInformation pkg reference :=
    if String.eqb pkg "typescript" then Some typescript_info else None;
  resolveRequest_pnpapi := "/project/.pnp.js";
|}.

Definition plain : Configuration := {| format_PATH := id |}.

Definition world (f : fs) : @World host := @Build_World host f [].

End Sample.

(** ** Vocabulary of the statements *)

(** A key-value mapping, as opposed to a sequence or a scalar. *)
Definition is_key_value_mapping (v : value) : Prop :=
  exists fields, v = Object fields.

(** The error of the first test of [load]. *)
Definition invalid_data_error (data : value) : exn :=
  Exn ErrorClass ("Utterly invalid integrations file data (" +:+ to_string data +:+ ")").

(** The identifiers of the supported enumeration: the keys of
    [SUPPORTED_INTEGRATIONS]. *)
Definition supported `{Sdks} (x : string) : Prop := x ∈ SUPPORTED_INTEGRATIONS.*1.

(** [x] is a piece of the text [s]. *)
Definition occurs_in (x s : string) : Prop :=
  exists before after, s = before +:+ x +:+ after.

(** The filesystem gives back the text that [persist] puts: a directory
    made, a file changed, the file read. *)
Definition reads_back_the_change `{Host} : Prop :=
  forall (path : PortablePath) (content : string) (fs : FS),
    readFilePromise path
      (changeFilePromise_automaticNewlines path content
         (mkdirPromise_recursive (ppath_dirname path) fs))
    = Return content.

(** The document [persist] writes for a set of identifiers. *)
Definition document_of (names : list string) : value :=
  persisted_data {| integrations := map Str names; raw := Object [] |}.

(** The parser reads the banner and the printed document of a set of
    supported identifiers back as that document. *)
Definition syml_reads_back_the_document `{Sdks} : Prop :=
  forall names : list string,
    NoDup names -> (forall x, x ∈ names -> supported x) ->
    parseSyml (BANNER +:+ stringifySyml (document_of names)) = Return (document_of names).

(** The path [writeFile] records for [relPackagePath]: the written file,
    relative to the project root. *)
Definition project_path_of `{Host} (this : Wrapper) (relPackagePath : PortablePath)
  : PortablePath :=
  ppath_relative
    (npath_toPortablePath (packageLocation (topLevelInformation (pnpApi this))))
    (ppath_join [target this; name this; relPackagePath]).

Definition unregistered_path_error : exn :=
  Exn ErrorClass "Assertion failed: Expected path to have been registered".

(** A string without the character [c]. *)
Fixpoint lacks (c : ascii) (s : string) : bool :=
  match s with
  | EmptyString => true
  | String c' rest => negb (Ascii.eqb c' c) && lacks c rest
  end.

(** The lines of a text: what the line feeds delimit. A text that ends
    with a line feed has the empty string as its last line. *)
Definition script_lines (text : string) : list string :=
  split (Ascii.ascii_of_nat 10) text.

(** A string that holds no line feed. *)
Definition one_line (s : string) : bool := lacks (Ascii.ascii_of_nat 10) s.

(** What the template interpolates, each on one line: the rendering of the
    path, the module name, and the source of [wrapModule] as the template
    puts it when there is one. *)
Definition one_line_inputs `{Host} (relPnpApiPath : PortablePath) (module : string)
    (options : TemplateOptions) : bool :=
  one_line (JSON_stringify (npath_fromPortablePath relPnpApiPath))
  && one_line module
  && one_line (replace_leading_indent (trim (default "" (wrapModule options)))).

(** The lines of the text of a block that are its own: all but the blank
    lines and the closing brace of an [if], which the script has anyway. *)
Definition block_lines (block : list string) : list string :=
  List.filter (fun line => negb (String.eqb line "" || String.eqb line "  }"))
              (script_lines (join "" block)).

(** The lines of a block that are its own: a block also holds blank lines
    and the closing brace of an [if], which the script has anyway. *)
Definition own_lines (block : list string) : list string :=
  List.filter (fun line => negb (String.eqb line LF || String.eqb line ("  }" +:+ LF))) block.

(** A computation adds [events] satisfying [ok] to the log, whatever the
    world it starts from, and never takes from it. *)
Definition appends `{Host} {A : Type} (m : M World A) (ok : event -> Prop) : Prop :=
  forall w, exists events, log (m w).2 = log w ++ events /\ Forall ok events.

(** The base SDKs whose package is no dependency of the top level, by
    display name and in the order of the table. *)
Definition absent_names `{Host} (pnpApi : PnpApi)
    (sdks : list (SupportedSdk * GenerateBaseWrapper)) : list string :=
  map (fun sdk => getDisplayName sdk.1)
      (List.filter
         (fun sdk => negb (bool_decide
                             (is_Some (packageDependencies (topLevelInformation pnpApi) !! sdk.1))))
         sdks).

(** An event that is no call of a generator for the package [P]. *)
Definition not_for (P : SupportedSdk) (e : event) : Prop :=
  e <> base_wrapper_called P /\ e <> integration_wrapper_called P.

(** The report of the skipped packages: one warning for each when verbose,
    one warning with their number otherwise, nothing when there is none. *)
Definition skipped_report `{Host} (verbose : bool) (skipped : list string) : list event :=
  if (0 <? length skipped)%nat then
    if verbose then map skipped_item skipped else [skipped_count (length skipped)]
  else [].

(** ** Vocabulary of the further properties *)

(** A value that is one of the two supported identifiers. *)
Definition is_supported_value (x : value) : Prop := x = Str "vim" \/ x = Str "vscode".

(** A value that is no array and no object. *)
Definition is_primitive (x : value) : bool :=
  match x with
  | Array _ | Object _ => false
  | _ => true
  end.

(** A file that was changed exists. *)
Definition exists_after_the_change `{Host} : Prop :=
  forall (path : PortablePath) (content : string) (fs : FS),
    existsSync path
      (changeFilePromise_automaticNewlines path content
         (mkdirPromise_recursive (ppath_dirname path) fs))
    = true.

(** A file that was written reads back as written. *)
Definition reads_back_the_write `{Host} : Prop :=
  forall (path : PortablePath) (content : string) (fs : FS),
    readFilePromise path (writeFilePromise path content fs) = Return content.

(** A string of white space only. *)
Fixpoint all_white_space (s : string) : bool :=
  match s with
  | EmptyString => true
  | String c rest => is_white_space c && all_white_space rest
  end.



(** ** The events a run is expected to log

    [traces_at m w expected]: started from [w], the computation [m] adds to
    the log the list [expected] when it returns, and a first part of it when
    it throws. *)
Definition traces_at `{Host} {A : Type} (m : M World A) (w : World)
    (expected : list event) : Prop :=
  exists events,
    log (m w).2 = log w ++ events
    /\ match (m w).1 with
       | Return _ => events = expected
       | Throw _ => events `prefix_of` expected
       end.

Section ExpectedEvents.
Context `{Sdks}.
Variables (pnpApi : PnpApi) (requestedIntegrations preexistingIntegrations : list string).
Variables (verbose : bool) (configuration : Configuration).

(** The call of the default generator of a table, when it has one. *)
Definition default_events (sdks : list IntegrationSdk) : list event :=
  match List.find is_default_sdk sdks with
  | Some (DefaultSdk (Some _)) => [default_wrapper_called]
  | _ => []
  end.

(** The call of the generator of a table for a package, when it has one. *)
Definition integration_events (pkgName : SupportedSdk) (sdks : list IntegrationSdk)
  : list event :=
  match List.find (is_sdk_of pkgName) sdks with
  | Some (PackageSdk _ (Some _)) => [integration_wrapper_called pkgName]
  | _ => []
  end.

(** A base SDK that is a dependency: its line of the report, its base
    generator, then its generator in each selected table, in the order of
    the tables. One that is no dependency: nothing. *)
Definition base_events (sdk : SupportedSdk * GenerateBaseWrapper) : list event :=
  if bool_decide (is_Some (packageDependencies (topLevelInformation pnpApi) !! sdk.1)) then
    [ reportInfo (chalk_green "✓" +:+ " " +:+ getDisplayName sdk.1);
      base_wrapper_called sdk.1 ]
    ++ flat_map (integration_events sdk.1)
                (integrationSdks requestedIntegrations preexistingIntegrations)
  else [].

Definition generation_events : list event :=
  [ startTimer ("Generating SDKs inside " +:+ format_PATH configuration SDK_FOLDER) ]
  ++ flat_map default_events (integrationSdks requestedIntegrations preexistingIntegrations)
  ++ flat_map base_events BASE_SDKS
  ++ skipped_report verbose (absent_names pnpApi BASE_SDKS).

Definition settings_line (integration : string) : event :=
  reportInfo (chalk_green "✓" +:+ " " +:+ getDisplayName integration
              +:+ (if has String.eqb integration preexistingIntegrations
                   then " (updated 🔼)" else " (new ✨)")).

Definition settings_events : list event :=
  if (0 <? length (allIntegrations requestedIntegrations preexistingIntegrations))%nat then
    startTimer "Generating settings"
    :: map settings_line (allIntegrations requestedIntegrations preexistingIntegrations)
  else [].

(** Whether the run removes the old folder, and the filesystem after that. *)
Definition old_folder_removed (fs : FS) : bool :=
  existsSync (oldTargetFolder pnpApi) fs
  && negb (lstatSync_isSymbolicLink (oldTargetFolder pnpApi) fs).

Definition files_after_old_folder (fs : FS) : FS :=
  if old_folder_removed fs then removePromise (oldTargetFolder pnpApi) fs else fs.

Definition cleanup_events (fs : FS) : list event :=
  (if old_folder_removed fs then [reportWarning (OLD_FOLDER_WARNING configuration)] else [])
  ++ (if existsSync (targetFolder pnpApi) (files_after_old_folder fs)
      then [reportWarning "Cleaning up the existing SDK files..."] else []).

(** The filesystem on which the generators start: cleaned, with the
    integrations file written. *)
Definition files_before_generation (fs : FS) : FS :=
  let cleaned :=
    if existsSync (targetFolder pnpApi) (files_after_old_folder fs)
    then removePromise (targetFolder pnpApi) (files_after_old_folder fs)
    else files_after_old_folder fs in
  persist (targetFolder pnpApi)
    (set_integrations
       (map Str (allIntegrations requestedIntegrations preexistingIntegrations))
       new_IntegrationsFile)
    cleaned.

(** The events of a whole run started on the filesystem [fs]. *)
Definition run_events (fs : FS) : list event :=
  cleanup_events fs ++ generation_events ++ settings_events.

End ExpectedEvents.

(** The document a run persists for the integrations it is given. *)
Definition persisted_document (requestedIntegrations preexistingIntegrations : list string)
  : value :=
  persisted_data
    (set_integrations
       (map Str (allIntegrations requestedIntegrations preexistingIntegrations))
       new_IntegrationsFile).

(** * Properties *)

(** ** Sets in insertion order *)

Section CollectionFacts.
Context {A : Type} (same : A -> A -> bool).
Hypothesis same_spec : forall x y, same x y = true <-> x = y.

Lemma has_elem_of (x : A) (s : list A) : has same x s = true <-> x ∈ s.
Proof.
  unfold has. rewrite existsb_exists, list_elem_of_In. split.
  - intros (y & Hy & Hxy). apply same_spec in Hxy. now subst.
  - intros Hx. exists x. split; [assumption | now apply same_spec].
Qed.

Lemma elem_of_add (x y : A) (s : list A) : y ∈ add same s x <-> y ∈ s \/ y = x.
Proof.
  unfold add. destruct (has same x s) eqn:Hhas.
  - apply has_elem_of in Hhas. split; [tauto | intros [? | ->]; assumption].
  - rewrite elem_of_app, list_elem_of_singleton. tauto.
Qed.

Lemma elem_of_fold_add (xs acc : list A) (y : A) :
  y ∈ fold_left (add same) xs acc <-> y ∈ acc \/ y ∈ xs.
Proof.
  revert acc. induction xs as [| x xs IH]; intros acc; simpl.
  - rewrite elem_of_nil. tauto.
  - rewrite IH, elem_of_add, elem_of_cons. tauto.
Qed.

Lemma elem_of_Set_from (xs : list A) (y : A) : y ∈ Set_from same xs <-> y ∈ xs.
Proof. unfold Set_from. rewrite elem_of_fold_add, elem_of_nil. tauto. Qed.

Lemma NoDup_add (x : A) (s : list A) : NoDup s -> NoDup (add same s x).
Proof.
  intros Hs. unfold add. destruct (has same x s) eqn:Hhas; [assumption |].
  apply NoDup_app. repeat split; try assumption.
  - intros y Hy Hin. apply list_elem_of_singleton in Hin as ->.
    apply has_elem_of in Hy. congruence.
  - apply NoDup_singleton.
Qed.

Lemma NoDup_fold_add (xs acc : list A) :
  NoDup acc -> NoDup (fold_left (add same) xs acc).
Proof.
  revert acc. induction xs as [| x xs IH]; intros acc Hacc; simpl.
  - assumption.
  - apply IH. now apply NoDup_add.
Qed.

Lemma NoDup_Set_from (xs : list A) : NoDup (Set_from same xs).
Proof. apply NoDup_fold_add. constructor. Qed.

(** Rebuilding a set from its own elements gives it back. *)
Lemma fold_add_fresh (xs acc : list A) :
  NoDup (acc ++ xs) -> fold_left (add same) xs acc = acc ++ xs.
Proof.
  revert acc. induction xs as [| x xs IH]; intros acc Hnd; simpl.
  - now rewrite app_nil_r.
  - assert (Hfresh : has same x acc = false).
    { destruct (has same x acc) eqn:Hhas; [| reflexivity].
      apply has_elem_of in Hhas. apply NoDup_app in Hnd as (_ & Hdisj & _).
      exfalso. apply (Hdisj x Hhas). now left. }
    unfold add at 2. rewrite Hfresh.
    rewrite IH; rewrite <- app_assoc; [reflexivity | exact Hnd].
Qed.

Lemma Set_from_NoDup (xs : list A) : NoDup xs -> Set_from same xs = xs.
Proof. intros Hnd. unfold Set_from. now rewrite fold_add_fresh. Qed.

End CollectionFacts.

Lemma String_eqb_spec (x y : string) : String.eqb x y = true <-> x = y.
Proof. apply String.eqb_eq. Qed.

(** On strings SameValueZero is equality of strings. *)
Lemma has_Str (x : string) (s : list string) :
  has sameValueZero (Str x) (map Str s) = has String.eqb x s.
Proof.
  unfold has. induction s as [| y s IH]; simpl; [reflexivity |].
  now rewrite IH.
Qed.

Lemma fold_add_Str (xs acc : list string) :
  fold_left (add sameValueZero) (map Str xs) (map Str acc)
  = map Str (fold_left (add String.eqb) xs acc).
Proof.
  revert acc. induction xs as [| x xs IH]; intros acc; simpl; [reflexivity |].
  replace (add sameValueZero (map Str acc) (Str x)) with (map Str (add String.eqb acc x)).
  - apply IH.
  - unfold add. rewrite has_Str. destruct (has String.eqb x acc); [reflexivity |].
    now rewrite map_app.
Qed.

Lemma Set_from_Str (xs : list string) :
  Set_from sameValueZero (map Str xs) = map Str (Set_from String.eqb xs).
Proof. apply (fold_add_Str xs []). Qed.

Lemma Array_join_Str (sep : string) (xs : list string) :
  Array_join sep (map Str xs) = join sep xs.
Proof.
  unfold Array_join. rewrite map_map. simpl. now rewrite map_id.
Qed.

(** ** Strings *)

Lemma append_cons (c : ascii) (s t : string) : String c s +:+ t = String c (s +:+ t).
Proof. reflexivity. Qed.

Lemma append_nil_l (s : string) : "" +:+ s = s.
Proof. reflexivity. Qed.

Lemma append_nil_r (s : string) : s +:+ "" = s.
Proof. induction s as [| c s IH]; [reflexivity |]. now rewrite append_cons, IH. Qed.

Lemma append_assoc (s t u : string) : (s +:+ t) +:+ u = s +:+ (t +:+ u).
Proof. induction s as [| c s IH]; [reflexivity |]. now rewrite !append_cons, IH. Qed.

Lemma occurs_in_refl (x : string) : occurs_in x x.
Proof. exists "", "". now rewrite append_nil_l, append_nil_r. Qed.

Lemma occurs_in_append_l (x s t : string) : occurs_in x s -> occurs_in x (s +:+ t).
Proof.
  intros (before & after & ->). exists before, (after +:+ t).
  now rewrite !append_assoc.
Qed.

Lemma occurs_in_append_r (x s t : string) : occurs_in x t -> occurs_in x (s +:+ t).
Proof.
  intros (before & after & ->). exists (s +:+ before), after.
  now rewrite !append_assoc.
Qed.

(** Every element of a joined list is a piece of the result. *)
Lemma occurs_in_join (sep x : string) (xs : list string) :
  x ∈ xs -> occurs_in x (join sep xs).
Proof.
  induction xs as [| y [| z xs] IH]; intros Hx.
  - now apply elem_of_nil in Hx.
  - apply list_elem_of_singleton in Hx as ->. apply occurs_in_refl.
  - change (join sep (y :: z :: xs)) with (y +:+ sep +:+ join sep (z :: xs)).
    apply elem_of_cons in Hx as [-> | Hx].
    + apply occurs_in_append_l, occurs_in_refl.
    + now apply occurs_in_append_r, occurs_in_append_r, IH.
Qed.

Lemma lacks_append (c : ascii) (s t : string) :
  lacks c (s +:+ t) = lacks c s && lacks c t.
Proof.
  induction s as [| c' s IH]; [reflexivity |].
  rewrite append_cons. cbn [lacks]. now rewrite IH, andb_assoc.
Qed.

Lemma split_nonempty (sep : ascii) (s : string) : split sep s <> [].
Proof.
  destruct s as [| c s]; cbn [split]; [discriminate |].
  destruct (Ascii.eqb c sep); [discriminate |]. now destruct (split sep s).
Qed.

(** The pieces of a split hold no separator. *)
Lemma split_lacks (sep : ascii) (s : string) : Forall (fun w => lacks sep w = true) (split sep s).
Proof.
  induction s as [| c s IH]; cbn [split].
  - now repeat constructor.
  - destruct (Ascii.eqb c sep) eqn:Hc; [now constructor |].
    destruct (split sep s) as [| w ws]; [now repeat constructor; cbn; rewrite Hc |].
    apply Forall_cons in IH as [Hw Hws]. constructor; [| assumption].
    cbn [lacks]. now rewrite Hc, Hw.
Qed.

Lemma split_piece (sep : ascii) (w rest : string) :
  lacks sep w = true ->
  split sep (w +:+ String sep rest) = w :: split sep rest.
Proof.
  induction w as [| c w IH]; intros Hw.
  - rewrite append_nil_l. cbn [split]. now rewrite Ascii.eqb_refl.
  - cbn [lacks] in Hw. apply andb_true_iff in Hw as [Hc Hw]. apply negb_true_iff in Hc.
    rewrite append_cons. cbn [split]. rewrite Hc, IH by assumption. reflexivity.
Qed.

Lemma split_last_piece (sep : ascii) (w : string) : lacks sep w = true -> split sep w = [w].
Proof.
  induction w as [| c w IH]; intros Hw; [reflexivity |].
  cbn [lacks] in Hw. apply andb_true_iff in Hw as [Hc Hw]. apply negb_true_iff in Hc.
  cbn [split]. now rewrite Hc, IH.
Qed.

(** Pieces without the separator, joined and split, are the pieces again. *)
Lemma split_join (sep : ascii) (ws : list string) :
  ws <> [] -> Forall (fun w => lacks sep w = true) ws ->
  split sep (join (String sep "") ws) = ws.
Proof.
  induction ws as [| w [| w' ws] IH]; intros Hne Hall; [contradiction | |].
  - apply Forall_cons in Hall as [Hw _]. now apply split_last_piece.
  - apply Forall_cons in Hall as [Hw Hall].
    change (join (String sep "") (w :: w' :: ws))
      with (w +:+ String sep "" +:+ join (String sep "") (w' :: ws)).
    rewrite append_cons, append_nil_l, split_piece by assumption.
    now rewrite IH.
Qed.




(** White space beyond ASCII: a no-break space (C2 A0) and a line
    separator (E2 80 A8) are trimmed, and a line starts after a line
    separator. *)
Example trim_and_indent_beyond_ascii :
  let no_break_space := String (Ascii.ascii_of_nat 194) (String (Ascii.ascii_of_nat 160) "") in
  let line_separator :=
    String (Ascii.ascii_of_nat 226)
      (String (Ascii.ascii_of_nat 128) (String (Ascii.ascii_of_nat 168) "")) in
  trim (no_break_space +:+ " x y " +:+ line_separator +:+ no_break_space +:+ LF) = "x y"
  /\ replace_leading_indent ("    a" +:+ line_separator +:+ "    b" +:+ LF +:+ "        c")
     = "a" +:+ line_separator +:+ "b" +:+ LF +:+ "    c".
Proof. split; reflexivity. Qed.

(** ** IntegrationsFile.load *)

Section LoadFacts.
Context `{Sdks}.

Lemma Map_has_Str {V : Type} (x : string) (m : list (string * V)) :
  Map_has (Str x) m = has String.eqb x m.*1.
Proof.
  unfold Map_has. rewrite <- has_Str. f_equal.
  induction m as [| entry m IH]; [reflexivity |]. simpl. now rewrite IH.
Qed.

Lemma supported_has (x : string) :
  has String.eqb x SUPPORTED_INTEGRATIONS.*1 = true <-> supported x.
Proof. apply has_elem_of, String_eqb_spec. Qed.

(** The pushed identifiers of a set of strings are strings. *)
Lemma unsupportedIntegrations_Str (xs : list string) :
  unsupportedIntegrations (map Str xs)
  = map Str (List.filter (fun x => negb (has String.eqb x SUPPORTED_INTEGRATIONS.*1)) xs).
Proof.
  unfold unsupportedIntegrations. induction xs as [| x xs IH]; [reflexivity |].
  cbn [map List.filter]. rewrite Map_has_Str, IH.
  now destruct (negb (has String.eqb x _)).
Qed.

(** [load] on an object or an array: the data is stored, then the
    identifiers are validated when there is an array of them. *)
Lemma load_object (data : value) (this : IntegrationsFile) :
  String.eqb (typeof data) "object" = true -> is_null data = false ->
  load data this =
    if Array_isArray (get "integrations" data) then
      let s := Set_from sameValueZero (elements (get "integrations" data)) in
      (validateIntegrations s, {| integrations := s; raw := data |})
    else (Return tt, set_raw data this).
Proof.
  intros Hobj Hnull. unfold load. rewrite Hobj, Hnull. simpl negb. simpl orb. cbv iota.
  destruct (Array_isArray (get "integrations" data)); [| reflexivity].
  unfold bind, modify, gets, set_raw, set_integrations, id. simpl.
  now destruct (validateIntegrations _) as [[] | e].
Qed.

End LoadFacts.

(** On the small host the supported identifiers are the two of the source. *)
Lemma sample_supported (x : string) :
  @supported Sample.host Sample.sdks x <-> x = "vim" \/ x = "vscode".
Proof.
  unfold supported. cbn. rewrite !elem_of_cons, elem_of_nil. tauto.
Qed.

(** C3, as amended. [load] throws its invalid-data error exactly on the
    values that are not objects in the sense of [typeof] ([undefined],
    [null], booleans, numbers, strings), and then leaves the file as it
    was. An array passes the test like a key-value mapping does: for both,
    [raw] is the data after the call, and whatever the call throws after
    that is the usage error of the validation. *)
Theorem load_invalid_data_iff_not_object `{Sdks} (data : value) (this : IntegrationsFile) :
  match data with
  | Array _ | Object _ =>
      raw (load data this).2 = data
      /\ (load data this).1 <> Throw (invalid_data_error data)
      /\ forall e, (load data this).1 = Throw e -> class e = UsageErrorClass
  | _ => load data this = (Throw (invalid_data_error data), this)
  end.
Proof.
  destruct data as [| | b | repr | s | elems | fields]; try reflexivity.
  - rewrite load_object by reflexivity. simpl.
    split; [reflexivity |]. split; [discriminate |]. intros e He. discriminate He.
  - rewrite load_object by reflexivity.
    destruct (Array_isArray (get "integrations" (Object fields))); simpl.
    + split; [reflexivity |]. unfold validateIntegrations, invalid_data_error.
      destruct (0 <? length _)%nat.
      * split; [discriminate |]. intros e [= <-]. reflexivity.
      * split; [discriminate |]. intros e He. discriminate He.
    + split; [reflexivity |]. split; [discriminate |]. intros e He. discriminate He.
Qed.

(** C3 fails on an array: it is no key-value mapping, and [load] takes it. *)
Lemma load_accepts_array :
  ~ is_key_value_mapping (Array [Str "vim"])
  /\ @load Sample.host Sample.sdks (Array [Str "vim"]) new_IntegrationsFile
     = (Return tt, {| integrations := []; raw := Array [Str "vim"] |}).
Proof.
  split; [| reflexivity]. intros [fields Hfields]. discriminate Hfields.
Qed.

(** C4. When the array of identifiers handed to [load] holds one that is
    not supported, [load] throws a usage error; its message is the fixed
    prefix, the listed names joined by a comma and a space, and the
    guidance text. The listed names are the unsupported identifiers of the
    input, all of them and nothing else, and each is a piece of the
    message. *)
Theorem load_names_every_unsupported `{Sdks} (names : list string) (data : value)
    (this : IntegrationsFile) :
  get "integrations" data = Array (map Str names) ->
  (exists x, x ∈ names /\ ~ supported x) ->
  exists listed : list string,
    (load data this).1
      = Throw (Exn UsageErrorClass
                 (UNSUPPORTED_PREFIX +:+ join ", " listed +:+ UNSUPPORTED_GUIDANCE))
    /\ (forall x, x ∈ listed <-> x ∈ names /\ ~ supported x)
    /\ (forall x, x ∈ names -> ~ supported x ->
          occurs_in x (UNSUPPORTED_PREFIX +:+ join ", " listed +:+ UNSUPPORTED_GUIDANCE)).
Proof.
  intros Hget (bad & Hbad & Hunsupported).
  set (listed := List.filter (fun x => negb (has String.eqb x SUPPORTED_INTEGRATIONS.*1))
                             (Set_from String.eqb names)).
  assert (Hlisted : forall x, x ∈ listed <-> x ∈ names /\ ~ supported x).
  { intros x. unfold listed. rewrite list_elem_of_In, filter_In, <- list_elem_of_In.
    rewrite (elem_of_Set_from _ String_eqb_spec), <- supported_has.
    destruct (has String.eqb x _); simpl; intuition congruence. }
  exists listed. split; [| split; [exact Hlisted |]].
  - destruct data as [| | b | repr | s | elems | fields]; try discriminate Hget.
    rewrite load_object by reflexivity. rewrite Hget. simpl.
    rewrite Set_from_Str. unfold validateIntegrations.
    rewrite unsupportedIntegrations_Str, Array_join_Str, length_map. fold listed.
    destruct listed as [| y ys] eqn:Hnil; [| reflexivity].
    exfalso. apply (elem_of_nil bad). apply Hlisted. now split.
  - intros x Hx Hnot. apply occurs_in_append_r, occurs_in_append_l, occurs_in_join.
    apply Hlisted. now split.
Qed.

Lemma load_names_every_unsupported_witness :
  exists listed : list string,
    (@load Sample.host Sample.sdks
       (Object [("integrations", Array (map Str ["vim"; "emacs"; "atom"]))])
       new_IntegrationsFile).1
      = Throw (Exn UsageErrorClass
                 (UNSUPPORTED_PREFIX +:+ join ", " listed +:+ UNSUPPORTED_GUIDANCE))
    /\ (forall x, x ∈ listed <-> x ∈ ["vim"; "emacs"; "atom"] /\ ~ @supported Sample.host Sample.sdks x)
    /\ (forall x, x ∈ ["vim"; "emacs"; "atom"] -> ~ @supported Sample.host Sample.sdks x ->
          occurs_in x (UNSUPPORTED_PREFIX +:+ join ", " listed +:+ UNSUPPORTED_GUIDANCE)).
Proof.
  apply (@load_names_every_unsupported Sample.host Sample.sdks ["vim"; "emacs"; "atom"]).
  - reflexivity.
  - exists "emacs". split.
    + apply list_elem_of_In. simpl. tauto.
    + rewrite sample_supported. intros [Hvim | Hvscode]; discriminate.
Defined.

(** ** IntegrationsFile.persist *)

(** C2, as amended. The document [persist] writes holds the key
    [integrations] and no other: the array of the set in insertion order
    when the set is not empty, and no key at all when it is. What [load]
    stored in [raw] is not written: the file written does not depend on
    [raw]. *)
Theorem persist_writes_integrations_only `{Host} (this : IntegrationsFile) :
  persisted_data this
    = Object (if (0 <? length (integrations this))%nat
              then [("integrations", Array (integrations this))] else [])
  /\ (forall key, get key (persisted_data this)
                  = if String.eqb key "integrations" && (0 <? length (integrations this))%nat
                    then Array (integrations this) else Undefined)
  /\ (forall data dir fs, persist dir (set_raw data this) fs = persist dir this fs).
Proof.
  unfold persisted_data, exportTo. split; [| split]; [| | reflexivity].
  - now destruct (0 <? length (integrations this))%nat.
  - intros key. destruct (0 <? length (integrations this))%nat; simpl.
    + now destruct (String.eqb key "integrations").
    + now rewrite andb_false_r.
Qed.

(** C2 fails on a file with a key of its own: [load] takes the document,
    and the document written by [persist] has lost the key. *)
Lemma persist_drops_unknown_keys :
  let data := Object [("version", Str "2"); ("integrations", Array [Str "vscode"])] in
  let loaded := @load Sample.host Sample.sdks data new_IntegrationsFile in
  loaded.1 = Return tt
  /\ get "version" data = Str "2"
  /\ get "version" (persisted_data loaded.2) = Undefined
  /\ Sample.read "/project/.yarn/sdks/integrations.yml"
       (@persist Sample.host "/project/.yarn/sdks" loaded.2 Sample.empty_fs)
     = Return (BANNER +:+ "integrations:" +:+ LF +:+ "  - vscode" +:+ LF).
Proof. repeat split. Qed.

(** ** Loading, persisting and loading again *)

Section RoundTrip.
Context `{Sdks}.

Lemma validateIntegrations_supported (names : list string) :
  (forall x, x ∈ names -> supported x) ->
  validateIntegrations (map Str names) = Return tt.
Proof.
  intros Hall. unfold validateIntegrations. rewrite unsupportedIntegrations_Str.
  replace (List.filter _ names) with (@nil string); [reflexivity |].
  symmetry. induction names as [| x names IH]; [reflexivity |].
  cbn [List.filter].
  assert (Hx : has String.eqb x SUPPORTED_INTEGRATIONS.*1 = true).
  { apply supported_has, Hall. now left. }
  rewrite Hx. simpl. apply IH. intros y Hy. apply Hall. now right.
Qed.

(** [load] on the document of a set of supported identifiers, into a file
    whose set is empty, leaves that set in the file. *)
Lemma load_document_of (names : list string) (this : IntegrationsFile) :
  NoDup names -> (forall x, x ∈ names -> supported x) ->
  integrations this = [] ->
  (load (document_of names) this).1 = Return tt
  /\ integrations (load (document_of names) this).2 = map Str names.
Proof.
  intros Hnd Hall Hempty. destruct names as [| x names].
  - split; [reflexivity | exact Hempty].
  - change (document_of (x :: names))
      with (Object [("integrations", Array (map Str (x :: names)))]).
    rewrite load_object by reflexivity.
    change (get "integrations" (Object [("integrations", Array (map Str (x :: names)))]))
      with (Array (map Str (x :: names))).
    cbn [Array_isArray elements]. rewrite (Set_from_Str (x :: names)).
    rewrite (Set_from_NoDup _ String_eqb_spec) by assumption.
    rewrite (validateIntegrations_supported (x :: names)) by assumption.
    split; reflexivity.
Qed.

End RoundTrip.

(** C1. On a filesystem that gives back what is written to it and with a
    parser that reads the printed documents back, for every array [S] of
    supported identifiers: [load] takes [{integrations: S}], [persist]
    writes the file, and [loadFile] into a fresh [IntegrationsFile] returns
    with the same set, whose elements are the identifiers of [S]. *)
Theorem load_persist_reload `{Sdks} (S : list string) (dir : PortablePath) (fs : FS)
    (this : IntegrationsFile) :
  reads_back_the_change -> syml_reads_back_the_document ->
  (forall x, x ∈ S -> supported x) ->
  let loaded := load (Object [("integrations", Array (map Str S))]) this in
  let reloaded := loadFile (ppath_join [dir; INTEGRATIONS_FILE])
                           (persist dir loaded.2 fs) new_IntegrationsFile in
  loaded.1 = Return tt
  /\ reloaded.1 = Return tt
  /\ integrations reloaded.2 = integrations loaded.2
  /\ (forall x, x ∈ integrations reloaded.2 <-> exists s, x = Str s /\ s ∈ S).
Proof.
  intros Hfs Hsyml Hall.
  set (names := Set_from String.eqb S).
  assert (Hnd : NoDup names) by apply NoDup_Set_from, String_eqb_spec.
  assert (Hnames : forall x, x ∈ names -> supported x).
  { intros x Hx. now apply Hall, (elem_of_Set_from _ String_eqb_spec). }
  assert (Hloaded : load (Object [("integrations", Array (map Str S))]) this
                    = (Return tt, {| integrations := map Str names;
                                     raw := Object [("integrations", Array (map Str S))] |})).
  { rewrite load_object by reflexivity.
    change (get "integrations" (Object [("integrations", Array (map Str S))]))
      with (Array (map Str S)).
    cbn [Array_isArray elements]. rewrite Set_from_Str. fold names.
    now rewrite validateIntegrations_supported. }
  cbv zeta. rewrite Hloaded. cbn [fst snd].
  assert (Hreload : loadFile (ppath_join [dir; INTEGRATIONS_FILE])
                      (persist dir {| integrations := map Str names;
                                      raw := Object [("integrations", Array (map Str S))] |} fs)
                      new_IntegrationsFile
                    = load (document_of names) new_IntegrationsFile).
  { unfold loadFile, persist. rewrite Hfs.
    change (truthy (BANNER +:+ _)) with true. cbv iota.
    change (persisted_data _) with (document_of names).
    now rewrite Hsyml. }
  rewrite Hreload.
  destruct (load_document_of names new_IntegrationsFile Hnd Hnames eq_refl) as [Hret Hset].
  rewrite Hret, Hset. repeat split; try reflexivity.
  - intros Hx. apply list_elem_of_In, in_map_iff in Hx as (s & <- & Hs).
    exists s. split; [reflexivity |].
    apply list_elem_of_In in Hs. unfold names in Hs.
    now rewrite (elem_of_Set_from _ String_eqb_spec) in Hs.
  - intros (s & -> & Hs). apply list_elem_of_In, in_map, list_elem_of_In.
    unfold names. now rewrite (elem_of_Set_from _ String_eqb_spec).
Qed.

(** The small host meets both assumptions. *)
Lemma sample_reads_back : @reads_back_the_change Sample.host.
Proof.
  intros path content fs. simpl. unfold Sample.read, Sample.put.
  now rewrite String.eqb_refl.
Qed.

Lemma supported_sets (names : list string) :
  NoDup names -> (forall x, x ∈ names -> x = "vim" \/ x = "vscode") ->
  names ∈ [ []; ["vim"]; ["vscode"]; ["vim"; "vscode"]; ["vscode"; "vim"] ].
Proof.
  intros Hnd Hall. rewrite !elem_of_cons.
  destruct names as [| a [| b [| c rest]]].
  - now left.
  - destruct (Hall a) as [-> | ->]; [now left | tauto | tauto].
  - apply NoDup_cons in Hnd as [Hab _]. apply not_elem_of_cons in Hab as [Hab _].
    destruct (Hall a) as [-> | ->]; [now left | |];
      (destruct (Hall b) as [-> | ->]; [right; now left | |]); tauto.
  - exfalso. apply NoDup_cons in Hnd as [Ha Hnd]. apply NoDup_cons in Hnd as [Hb _].
    apply not_elem_of_cons in Ha as [Hab Ha]. apply not_elem_of_cons in Ha as [Hac _].
    apply not_elem_of_cons in Hb as [Hbc _].
    destruct (Hall a) as [-> | ->]; [now left | |];
      (destruct (Hall b) as [-> | ->]; [right; now left | |]);
      (destruct (Hall c) as [-> | ->]; [right; right; now left | |]); congruence.
Qed.

Lemma sample_syml_reads_back : @syml_reads_back_the_document Sample.host Sample.sdks.
Proof.
  intros names Hnd Hall.
  assert (Hnames : names ∈ [ []; ["vim"]; ["vscode"]; ["vim"; "vscode"]; ["vscode"; "vim"] ]).
  { apply supported_sets; [assumption |]. intros x Hx. now apply sample_supported, Hall. }
  repeat (apply elem_of_cons in Hnames as [-> | Hnames]; [vm_compute; reflexivity |]).
  now apply elem_of_nil in Hnames.
Qed.

Lemma load_persist_reload_witness :
  let S := ["vscode"; "vim"; "vscode"] in
  let loaded := @load Sample.host Sample.sdks
                  (Object [("integrations", Array (map Str S))]) new_IntegrationsFile in
  let reloaded := @loadFile Sample.host Sample.sdks "/project/.yarn/sdks/integrations.yml"
                    (@persist Sample.host "/project/.yarn/sdks" loaded.2 Sample.empty_fs)
                    new_IntegrationsFile in
  loaded.1 = Return tt
  /\ reloaded.1 = Return tt
  /\ integrations reloaded.2 = integrations loaded.2
  /\ (forall x, x ∈ integrations reloaded.2 <-> exists s, x = Str s /\ s ∈ S).
Proof.
  apply (@load_persist_reload Sample.host Sample.sdks ["vscode"; "vim"; "vscode"]
           "/project/.yarn/sdks" Sample.empty_fs new_IntegrationsFile
           sample_reads_back sample_syml_reads_back).
  intros x Hx. apply sample_supported.
  rewrite !elem_of_cons, elem_of_nil in Hx. tauto.
Defined.

(** ** Wrapper *)

Section WrapperFacts.
Context `{Host}.

(** [writeFile], step by step: the folder, then the file, then the
    record; a step that rejects ends the call there. *)
Lemma writeFile_eq (rel : PortablePath) (options : TemplateOptions) (this : Wrapper) (fs : FS) :
  let path := ppath_join [target this; name this; rel] in
  let content :=
    TEMPLATE (ppath_relative (ppath_dirname path)
                (npath_toPortablePath (resolveRequest_pnpapi (pnpApi this))))
             (ppath_join [name this; rel]) options in
  let fs1 := mkdirPromise_recursive (ppath_dirname path) fs in
  writeFile rel options (this, fs)
  = match mkdirPromise_recursive_rejects (ppath_dirname path) fs with
    | Some e => (Throw e, (this, fs))
    | None =>
        match writeFilePromise_rejects path fs1 with
        | Some e => (Throw e, (this, fs1))
        | None => (Return path,
                   (register_path rel (project_path_of this rel) this,
                    writeFilePromise path content fs1))
        end
    end.
Proof.
  cbv zeta. cbv [writeFile bind gets await_fs on_this modify ret fst snd].
  destruct (mkdirPromise_recursive_rejects _ fs); [reflexivity |].
  destruct (writeFilePromise_rejects _ _); reflexivity.
Qed.

(** [writeFile] returns exactly when neither making the folder nor writing
    the file rejects. *)
Lemma writeFile_returns_iff (rel : PortablePath) (options : TemplateOptions) (this : Wrapper)
    (fs : FS) :
  let path := ppath_join [target this; name this; rel] in
  returned (writeFile rel options (this, fs)).1 = true
  <-> mkdirPromise_recursive_rejects (ppath_dirname path) fs = None
      /\ writeFilePromise_rejects path (mkdirPromise_recursive (ppath_dirname path) fs) = None.
Proof.
  pose proof (writeFile_eq rel options this fs) as Heq. cbv zeta in Heq |- *. rewrite Heq.
  destruct (mkdirPromise_recursive_rejects _ fs) as [e |].
  { cbn. split; [discriminate | now intros [? _]]. }
  destruct (writeFilePromise_rejects _ _) as [e |].
  { cbn. split; [discriminate | now intros [_ ?]]. }
  cbn. tauto.
Qed.

(** The wrapper after [writeFile]: the path is registered when the call
    returned, and nothing changed when it threw. *)
Lemma writeFile_this (rel : PortablePath) (options : TemplateOptions) (this : Wrapper) (fs : FS) :
  (writeFile rel options (this, fs)).2.1
  = if returned (writeFile rel options (this, fs)).1
    then register_path rel (project_path_of this rel) this
    else this.
Proof.
  pose proof (writeFile_eq rel options this fs) as Heq. cbv zeta in Heq. rewrite Heq.
  destruct (mkdirPromise_recursive_rejects _ fs); [reflexivity |].
  destruct (writeFilePromise_rejects _ _); reflexivity.
Qed.

(** [writeBinary] leaves the wrapper as its [writeFile] leaves it, also
    when changing the mode rejects. *)
Lemma writeBinary_this (rel : PortablePath) (options : TemplateOptions) (this : Wrapper)
    (fs : FS) :
  (writeBinary rel options (this, fs)).2.1 = (writeFile rel options (this, fs)).2.1.
Proof.
  unfold writeBinary, bind.
  destruct (writeFile rel options (this, fs)) as [[path | e] [this1 fs1]]; [| reflexivity].
  unfold await_fs. cbn [fst snd]. now destruct (chmodPromise_rejects path fs1).
Qed.

Lemma writeManifest_this (this : Wrapper) (fs : FS) : (writeManifest (this, fs)).2.1 = this.
Proof.
  unfold writeManifest, bind, gets. cbn [fst snd].
  now destruct (_ ≫= _).
Qed.

(** What one call does to the wrapper. *)
Lemma run_call_this (c : wrapper_call) (this : Wrapper) (fs : FS) :
  (run_call c (this, fs)).2.1
  = match c with
    | call_writeManifest => this
    | call_writeFile rel options | call_writeBinary rel options =>
        if returned (writeFile rel options (this, fs)).1
        then register_path rel (project_path_of this rel) this
        else this
    end.
Proof.
  destruct c as [| rel options | rel options]; cbn [run_call].
  - apply writeManifest_this.
  - rewrite <- writeFile_this. unfold bind.
    now destruct (writeFile rel options (this, fs)) as [[path | e] [this1 fs1]].
  - rewrite <- writeFile_this. apply writeBinary_this.
Qed.

(** After a list of calls the wrapper is the one it was, with the paths of
    the writes that went through registered on top of those it had. *)
Lemma run_calls_paths (calls : list wrapper_call) (this : Wrapper) (fs : FS) (p : PortablePath) :
  let this' := (run_calls calls (this, fs)).1 in
  project_path_of this' p = project_path_of this p
  /\ paths this' !! p
     = if bool_decide (p ∈ completed_writes calls (this, fs))
       then Some (project_path_of this p)
       else paths this !! p.
Proof.
  revert this fs. induction calls as [| c calls IH]; intros this fs.
  - split; reflexivity.
  - cbn [run_calls completed_writes].
    pose proof (run_call_this c this fs) as Hthis.
    destruct (run_call c (this, fs)) as [r [this1 fs1]] eqn:Hcall.
    cbn [fst snd] in Hthis |- *. specialize (IH this1 fs1). cbv zeta in IH |- *.
    destruct IH as [IHproj IHpaths]. rewrite IHproj, IHpaths.
    assert (Hproj : project_path_of this1 p = project_path_of this p).
    { subst this1. destruct c as [| rel options | rel options]; [reflexivity | |];
        now destruct (returned _). }
    rewrite Hproj. split; [reflexivity |].
    set (rest := completed_writes calls (this1, fs1)).
    destruct c as [| rel options | rel options]; [now subst this1 | |].
    all: destruct (returned (writeFile rel options (this, fs)).1); subst this1;
         [| reflexivity].
    all: rewrite (bool_decide_ext (p ∈ [rel] ++ rest) (p = rel \/ p ∈ rest))
           by (rewrite elem_of_app, list_elem_of_singleton; reflexivity).
    all: destruct (bool_decide (p ∈ rest)) eqn:Hin.
    all: try (apply bool_decide_eq_true in Hin; rewrite bool_decide_eq_true_2 by tauto;
              reflexivity).
    all: apply bool_decide_eq_false in Hin.
    all: destruct (decide (p = rel)) as [-> | Hne].
    all: try (rewrite bool_decide_eq_true_2 by tauto; cbn [paths register_path];
              now rewrite lookup_insert_eq).
    all: rewrite bool_decide_eq_false_2 by tauto; cbn [paths register_path];
         now rewrite lookup_insert_ne.
Qed.

(** Only a path that was passed to a write can have gone through. *)
Lemma completed_writes_written (calls : list wrapper_call) (s : Wrapper * FS)
    (p : PortablePath) :
  p ∈ completed_writes calls s -> p ∈ written_paths calls.
Proof.
  revert s. induction calls as [| c calls IH]; intros s; [easy |].
  cbn [completed_writes written_paths flat_map]. fold (written_paths calls).
  rewrite !elem_of_app. intros [Hp | Hp]; [left | right; now apply (IH _ Hp)].
  destruct c as [| rel options | rel options]; [easy | |];
    now destruct (returned _).
Qed.

End WrapperFacts.

(** C8 fails on a write that throws: a path that was passed to
    [writeFile] is not registered when the write threw. On the sample
    filesystem [writeManifest] writes the file [package.json] of the
    wrapper; a [writeFile] of [package.json/cli.js] then cannot make its
    folder and throws before it records the path, and [getProjectPathTo]
    throws the assertion error for a path that was passed to [writeFile]. *)
Lemma getProjectPathTo_after_failed_write :
  let this := new_Wrapper "typescript" Sample.project "/project/.yarn/sdks" in
  let calls := [call_writeManifest; call_writeFile "package.json/cli.js" no_options] in
  let after_manifest := (@run_call Sample.host call_writeManifest (this, Sample.empty_fs)).2 in
  "package.json/cli.js" ∈ written_paths calls
  /\ (@writeFile Sample.host "package.json/cli.js" no_options after_manifest).1
     = Throw (Exn ForeignClass
                "EEXIST: file already exists, mkdir /project/.yarn/sdks/typescript/package.json")
  /\ getProjectPathTo "package.json/cli.js"
       (@run_calls Sample.host calls (this, Sample.empty_fs)).1
     = Throw unregistered_path_error.
Proof.
  cbv zeta. split; [| split].
  - cbn. apply list_elem_of_singleton. reflexivity.
  - vm_compute. reflexivity.
  - vm_compute. reflexivity.
Qed.

(** C8, as amended. Take a wrapper as its constructor makes it and any calls
    of [writeManifest], [writeFile] and [writeBinary] on it, thrown ones
    included. Afterwards [getProjectPathTo p] returns exactly when a
    [writeFile] of [p], called directly or from [writeBinary], has
    returned, and the result is then the path of the written file relative
    to the project root, as that write recorded it. Otherwise it throws
    the assertion error; that is so in particular for every [p] that was
    never passed to [writeFile] or [writeBinary]. A [writeFile] returns
    exactly when neither making the folder nor writing the file rejects. *)
Theorem getProjectPathTo_after_completed_writes `{Host} (pkgName : PortablePath)
    (api : PnpApi) (folder : PortablePath) (calls : list wrapper_call) (fs : FS)
    (p : PortablePath) :
  let this := new_Wrapper pkgName api folder in
  let result := getProjectPathTo p (run_calls calls (this, fs)).1 in
  result = (if bool_decide (p ∈ completed_writes calls (this, fs))
            then Return (project_path_of this p)
            else Throw unregistered_path_error)
  /\ (p ∉ written_paths calls -> result = Throw unregistered_path_error)
  /\ (forall (rel : PortablePath) (options : TemplateOptions) (wrapper : Wrapper) (files : FS),
        let path := ppath_join [target wrapper; name wrapper; rel] in
        returned (writeFile rel options (wrapper, files)).1 = true
        <-> mkdirPromise_recursive_rejects (ppath_dirname path) files = None
            /\ writeFilePromise_rejects path
                 (mkdirPromise_recursive (ppath_dirname path) files) = None).
Proof.
  cbv zeta.
  assert (Hresult : getProjectPathTo p (run_calls calls (new_Wrapper pkgName api folder, fs)).1
                    = if bool_decide (p ∈ completed_writes calls
                                            (new_Wrapper pkgName api folder, fs))
                      then Return (project_path_of (new_Wrapper pkgName api folder) p)
                      else Throw unregistered_path_error).
  { unfold getProjectPathTo.
    destruct (run_calls_paths calls (new_Wrapper pkgName api folder) fs p) as [_ ->].
    destruct (bool_decide _); [reflexivity |].
    cbn [paths new_Wrapper]. now rewrite lookup_empty. }
  split; [exact Hresult |]. split.
  - intros Hp. rewrite Hresult. rewrite bool_decide_eq_false_2; [reflexivity |].
    intros Hin. apply Hp. now apply (completed_writes_written _ _ _ Hin).
  - intros rel options wrapper files. apply writeFile_returns_iff.
Qed.

(** ** The script template *)

Lemma join_empty_cons (x : string) (xs : list string) : join "" (x :: xs) = x +:+ join "" xs.
Proof. destruct xs; [symmetry; apply append_nil_r | reflexivity]. Qed.

Lemma join_empty_app (xs ys : list string) : join "" (xs ++ ys) = join "" xs +:+ join "" ys.
Proof.
  induction xs as [| x xs IH]; [reflexivity |].
  change ((x :: xs) ++ ys) with (x :: (xs ++ ys)).
  now rewrite !join_empty_cons, IH, append_assoc.
Qed.

Lemma script_lines_piece (body rest : string) :
  one_line body = true ->
  script_lines ((body +:+ LF) +:+ rest) = body :: script_lines rest.
Proof.
  intros Hbody. unfold script_lines. rewrite append_assoc.
  change (LF +:+ rest) with (String (Ascii.ascii_of_nat 10) rest).
  now apply split_piece.
Qed.


Lemma script_line_of_pieces (pieces : list string) (line : string) :
  Forall (fun piece => exists body, piece = body +:+ LF /\ one_line body = true) pieces ->
  line ∈ script_lines (join "" pieces) -> line = "" \/ line +:+ LF ∈ pieces.
Proof.
  induction pieces as [| piece pieces IH]; intros Hall Hline.
  - apply list_elem_of_singleton in Hline. now left.
  - apply Forall_cons in Hall as [(body & -> & Hbody) Hall].
    rewrite join_empty_cons, script_lines_piece in Hline by assumption.
    apply elem_of_cons in Hline as [-> | Hline].
    + right. apply elem_of_cons. now left.
    + destruct (IH Hall Hline) as [-> | Hin]; [now left |].
      right. apply elem_of_cons. now right.
Qed.

Section TemplateFacts.
Context `{Host}.




End TemplateFacts.

Section TemplateText.
Context `{Host}.

Lemma join_empty_around (xs ys : list string) (a b c : string) :
  join "" (xs ++ [a; b] ++ ys ++ [c]) = join "" xs +:+ a +:+ b +:+ join "" ys +:+ c.
Proof.
  rewrite join_empty_app. change ([a; b] ++ ys ++ [c]) with (a :: b :: (ys ++ [c])).
  rewrite !join_empty_cons, join_empty_app. cbn [join]. reflexivity.
Qed.

(** With a truthy [wrapModule] the text of the script has, on a line of its
    own, the definition of [moduleWrapper], and further down, at its end,
    the export through it. *)
Lemma TEMPLATE_text_wrapped (rel : PortablePath) (module : string) (options : TemplateOptions) :
  wrapModule_truthy (wrapModule options) = true ->
  exists before between,
    TEMPLATE rel module options
    = before +:+ LF
      +:+ ("const moduleWrapper = "
           +:+ replace_leading_indent (trim (default "" (wrapModule options))) +:+ LF)
      +:+ between
      +:+ "module.exports = moduleWrapper(absRequire(`" +:+ module +:+ "`));" +:+ LF.
Proof.
  intros Htruthy. unfold TEMPLATE, TEMPLATE_lines. cbv zeta. rewrite Htruthy.
  unfold wrapper_block, export_line.
  match goal with
  | |- exists before between,
         join "" ([?h1; ?h2; ?h3; ?h4; ?h5; ?h6; ?h7; ?h8; ?h9; ?h10; ?blank]
                  ++ [?definition; ?blank2] ++ ?guard ++ ?env ++ ?pnp
                  ++ [?f1; ?f2; ?f3; ?export]) = _ =>
      exists (join "" [h1; h2; h3; h4; h5; h6; h7; h8; h9; h10]),
             (join "" (blank2 :: guard ++ env ++ pnp ++ [f1; f2; f3]));
      transitivity (join "" ([h1; h2; h3; h4; h5; h6; h7; h8; h9; h10]
                             ++ [blank; definition]
                             ++ (blank2 :: guard ++ env ++ pnp ++ [f1; f2; f3])
                             ++ [export]))
  end.
  - f_equal. cbn [app]. rewrite <- !app_assoc. reflexivity.
  - apply join_empty_around.
Qed.

End TemplateText.







(** ** The monad *)

Lemma bind_Return {S A B : Type} (m : M S A) (k : A -> M S B) (s s'' : S) (b : B) :
  bind m k s = (Return b, s'') ->
  exists a s', m s = (Return a, s') /\ k a s' = (Return b, s'').
Proof.
  unfold bind. destruct (m s) as [[a | e] s']; [| discriminate].
  intros Hk. now exists a, s'.
Qed.

Section LogFacts.
Context `{Host}.
Variable ok : event -> Prop.

Lemma appends_ret {A : Type} (a : A) : appends (ret a) ok.
Proof. intros w. exists []. split; [now rewrite app_nil_r | constructor]. Qed.

Lemma appends_throw {A : Type} (e : exn) : appends (@throw World A e) ok.
Proof. intros w. exists []. split; [now rewrite app_nil_r | constructor]. Qed.

Lemma appends_gets {A : Type} (f : World -> A) : appends (gets f) ok.
Proof. intros w. exists []. split; [now rewrite app_nil_r | constructor]. Qed.

Lemma appends_emit (e : event) : ok e -> appends (emit e) ok.
Proof. intros He w. exists [e]. split; [reflexivity | now repeat constructor]. Qed.

Lemma appends_update_files (f : FS -> FS) : appends (update_files f) ok.
Proof. intros w. exists []. split; [now rewrite app_nil_r | constructor]. Qed.

Lemma appends_on_files {A : Type} (m : M FS A) : appends (on_files m) ok.
Proof.
  intros w. exists []. unfold on_files. destruct (m (files w)) as [r fs].
  split; [now rewrite app_nil_r | constructor].
Qed.

Lemma appends_bind {A B : Type} (m : M World A) (k : A -> M World B) :
  appends m ok -> (forall a, appends (k a) ok) -> appends (bind m k) ok.
Proof.
  intros Hm Hk w. destruct (Hm w) as (events & Hlog & Hok). unfold bind.
  destruct (m w) as [[a | e] w1]; cbn [snd] in Hlog.
  - destruct (Hk a w1) as (events' & Hlog' & Hok'). exists (events ++ events').
    split; [now rewrite Hlog', Hlog, app_assoc | now apply Forall_app].
  - now exists events.
Qed.

Lemma appends_for_of {A : Type} (xs : list A) (body : A -> M World unit) :
  (forall x, appends (body x) ok) -> appends (for_of xs body) ok.
Proof.
  intros Hbody. induction xs as [| x xs IH]; cbn [for_of].
  - apply appends_ret.
  - apply appends_bind; [apply Hbody | intros _; apply IH].
Qed.

End LogFacts.

(** A returned [bind] with its log: both halves returned, and the events of
    the whole are those of the halves. *)
Lemma bind_Return_log `{Host} {A B : Type} (m : M World A) (k : A -> M World B)
    (w w'' : World) (b : B) (ok : event -> Prop) :
  appends m ok ->
  bind m k w = (Return b, w'') ->
  exists a w' events, m w = (Return a, w') /\ log w' = log w ++ events
                      /\ k a w' = (Return b, w'').
Proof.
  intros Hm Hbind. apply bind_Return in Hbind as (a & w' & Hmw & Hk).
  destruct (Hm w) as (events & Hlog & _). rewrite Hmw in Hlog.
  now exists a, w', events.
Qed.

(** ** generateSdk *)

Section GenerateSdkFacts.
Context `{Sdks}.
Variables (pnpApi : PnpApi) (requestedIntegrations preexistingIntegrations : list string).
Variables (verbose : bool) (configuration : Configuration).

Lemma for_of_emit {A : Type} (f : A -> event) (xs : list A) (w : World) :
  for_of xs (fun x => emit (f x)) w
  = (Return tt, {| files := files w; log := log w ++ map f xs |}).
Proof.
  revert w. induction xs as [| x xs IH]; intros w; cbn [for_of map].
  - unfold ret. rewrite app_nil_r. now destruct w.
  - unfold bind, emit, modify. rewrite IH. cbn [files log].
    now rewrite <- app_assoc.
Qed.

Lemma report_skipped_eq (skipped : list string) (w : World) :
  report_skipped verbose skipped w
  = (Return tt, {| files := files w; log := log w ++ skipped_report verbose skipped |}).
Proof.
  unfold report_skipped, skipped_report. destruct (0 <? length skipped)%nat.
  - destruct verbose; [apply for_of_emit | reflexivity].
  - unfold ret. rewrite app_nil_r. now destruct w.
Qed.

(** The loop over the base SDKs, when it returns, returns the packages it
    did not find, after those it was given. *)
Lemma generate_base_wrappers_skipped (sdks : list (SupportedSdk * GenerateBaseWrapper))
    (skipped result : list string) (w w' : World) :
  generate_base_wrappers pnpApi requestedIntegrations preexistingIntegrations sdks skipped w
    = (Return result, w') ->
  result = skipped ++ absent_names pnpApi sdks.
Proof.
  revert skipped w. induction sdks as [| [pkgName generate] sdks IH]; intros skipped w Hrun.
  - injection Hrun as <- _. unfold absent_names. cbn. now rewrite app_nil_r.
  - cbn [generate_base_wrappers] in Hrun. unfold absent_names. cbn [List.filter fst].
    destruct (bool_decide (is_Some _)); cbn [negb].
    + apply bind_Return in Hrun as (_ & w1 & _ & Hrun).
      apply bind_Return in Hrun as (_ & w2 & _ & Hrun).
      apply bind_Return in Hrun as (wrapper & w3 & _ & Hrun).
      apply bind_Return in Hrun as (_ & w4 & _ & Hrun).
      now apply IH in Hrun.
    + apply IH in Hrun. rewrite Hrun, <- app_assoc. reflexivity.
Qed.

Section Absent.
Variable P : SupportedSdk.
Hypothesis P_absent : packageDependencies (topLevelInformation pnpApi) !! P = None.

Lemma appends_generate_default_wrapper (sdks : list IntegrationSdk) :
  appends (generate_default_wrapper pnpApi sdks) (not_for P).
Proof.
  unfold generate_default_wrapper.
  destruct (List.find is_default_sdk sdks) as [[[generate |] | pkgName generate] |];
    try apply appends_ret.
  apply appends_bind; [| intros _; apply appends_on_files].
  apply appends_emit. split; discriminate.
Qed.

Lemma appends_generate_integration_wrappers (pkgName : SupportedSdk)
    (tables : list (list IntegrationSdk)) (wrapper : Wrapper) :
  pkgName <> P ->
  appends (generate_integration_wrappers pnpApi pkgName tables wrapper) (not_for P).
Proof.
  intros Hne. revert wrapper.
  induction tables as [| sdks tables IH]; intros wrapper; cbn [generate_integration_wrappers].
  - apply appends_ret.
  - destruct (List.find (is_sdk_of pkgName) sdks) as [[generate | pkg [generate |]] |];
      try apply IH.
    apply appends_bind; [| intros _; apply appends_bind; [apply appends_on_files | apply IH]].
    apply appends_emit. split; congruence.
Qed.

Lemma appends_generate_base_wrappers (sdks : list (SupportedSdk * GenerateBaseWrapper))
    (skipped : list string) :
  appends (generate_base_wrappers pnpApi requestedIntegrations preexistingIntegrations
             sdks skipped) (not_for P).
Proof.
  revert skipped. induction sdks as [| [pkgName generate] sdks IH]; intros skipped;
    cbn [generate_base_wrappers].
  - apply appends_ret.
  - destruct (bool_decide (is_Some _)) eqn:Hdep; [| apply IH].
    assert (Hne : pkgName <> P).
    { intros ->. apply bool_decide_eq_true in Hdep. rewrite P_absent in Hdep.
      now destruct Hdep. }
    apply appends_bind; [apply appends_emit; split; discriminate | intros _].
    apply appends_bind; [apply appends_emit; split; congruence | intros _].
    apply appends_bind; [apply appends_on_files | intros wrapper].
    apply appends_bind; [now apply appends_generate_integration_wrappers | intros _].
    apply IH.
Qed.

Lemma appends_generate_sdks :
  appends (generate_sdks pnpApi requestedIntegrations preexistingIntegrations verbose
             configuration) (not_for P).
Proof.
  unfold generate_sdks.
  apply appends_bind; [apply appends_emit; split; discriminate | intros _].
  apply appends_bind;
    [apply appends_for_of; intros sdks; apply appends_generate_default_wrapper | intros _].
  apply appends_bind; [apply appends_generate_base_wrappers | intros skipped].
  intros w. rewrite report_skipped_eq. cbn [snd log]. eexists. split; [reflexivity |].
  unfold skipped_report. destruct (0 <? length skipped)%nat; [| constructor].
  destruct verbose.
  - apply Forall_forall. intros e He. apply list_elem_of_In, in_map_iff in He as (x & <- & _).
    split; discriminate.
  - repeat constructor; discriminate.
Qed.

Lemma appends_generate_settings :
  appends (generate_settings requestedIntegrations preexistingIntegrations) (not_for P).
Proof.
  unfold generate_settings. destruct (0 <? length _)%nat; [| apply appends_ret].
  apply appends_bind; [apply appends_emit; split; discriminate | intros _].
  apply appends_for_of. intros integration.
  destruct (has String.eqb integration preexistingIntegrations);
    apply appends_emit; split; discriminate.
Qed.

Lemma appends_clean_old_folder :
  appends (clean_old_folder pnpApi configuration) (not_for P).
Proof.
  unfold clean_old_folder. apply appends_bind; [apply appends_gets | intros w].
  destruct (_ && _); [| apply appends_ret].
  apply appends_bind; [apply appends_emit; split; discriminate | intros _].
  apply appends_update_files.
Qed.

Lemma appends_clean_target_folder : appends (clean_target_folder pnpApi) (not_for P).
Proof.
  unfold clean_target_folder. apply appends_bind; [apply appends_gets | intros w].
  destruct (existsSync _ _); [| apply appends_ret].
  apply appends_bind; [apply appends_emit; split; discriminate | intros _].
  apply appends_update_files.
Qed.

End Absent.
End GenerateSdkFacts.

Lemma absent_name_listed `{Host} (pnpApi : PnpApi) (P : SupportedSdk)
    (sdks : list (SupportedSdk * GenerateBaseWrapper)) :
  P ∈ sdks.*1 ->
  packageDependencies (topLevelInformation pnpApi) !! P = None ->
  getDisplayName P ∈ absent_names pnpApi sdks.
Proof.
  intros HP Habsent. apply list_elem_of_fmap in HP as ([pkgName generate] & -> & Hin).
  unfold absent_names. apply list_elem_of_In, in_map_iff.
  exists (pkgName, generate). split; [reflexivity |].
  apply filter_In. split; [now apply list_elem_of_In |].
  cbn [fst] in *. rewrite Habsent. rewrite bool_decide_eq_false_2; [reflexivity |].
  now intros [x Hx].
Qed.

(** C5. Let [P] be a package of [BASE_SDKS] that is no dependency of the top
    level. In every run of [generateSdk], finished or cut short by a
    generator that throws, the events of the run hold no call of a base
    generator or of an integration generator for [P]. When the run returns,
    the report of the skipped packages is among its events. With [verbose]
    it is the warning whose text is the yellow bullet, the display name of
    [P] and [(dependency not found; skipped)]. Otherwise it is the one
    warning whose text is the yellow bullet, the number, in decimal, of the
    packages of [BASE_SDKS] that are no dependency of the top level, of
    which [P] is one, and [SDKs were skipped based on your root
    dependencies]. *)
Theorem absent_base_sdk_is_skipped `{Sdks} (pnpApi : PnpApi)
    (integrations : AllIntegrations) (options : Options)
    (P : SupportedSdk) (w : World) :
  P ∈ BASE_SDKS.*1 ->
  packageDependencies (topLevelInformation pnpApi) !! P = None ->
  let run := generateSdk pnpApi integrations options w in
  let absent :=
    List.filter
      (fun sdk => negb (bool_decide
                          (is_Some (packageDependencies (topLevelInformation pnpApi) !! sdk.1))))
      BASE_SDKS in
  exists events,
    log run.2 = log w ++ events
    /\ (base_wrapper_called P ∉ events)
    /\ (integration_wrapper_called P ∉ events)
    /\ (P ∈ absent.*1)
    /\ (run.1 = Return tt ->
        if verbose options
        then reportWarning (chalk_yellow "•" +:+ " " +:+ getDisplayName P
                            +:+ " (dependency not found; skipped)") ∈ events
        else reportWarning (chalk_yellow "•" +:+ " "
                            +:+ DecimalString.NilZero.string_of_uint
                                  (Nat.to_uint (length absent))
                            +:+ " SDKs were skipped based on your root dependencies")
             ∈ events).
Proof.
  intros HP Habsent. cbv zeta.
  assert (Hcounted :
    P ∈ (List.filter
           (fun sdk => negb (bool_decide
                               (is_Some (packageDependencies (topLevelInformation pnpApi)
                                           !! sdk.1))))
           BASE_SDKS).*1).
  { apply list_elem_of_fmap in HP as ([pkgName generate] & -> & Hin).
    apply list_elem_of_fmap. exists (pkgName, generate). split; [reflexivity |].
    apply list_elem_of_In, filter_In. split; [now apply list_elem_of_In |].
    cbn [fst] in *. rewrite Habsent. rewrite bool_decide_eq_false_2; [reflexivity |].
    now intros [x Hx]. }
  assert (Hlength :
    length (absent_names pnpApi BASE_SDKS)
    = length (List.filter
                (fun sdk => negb (bool_decide
                                    (is_Some (packageDependencies (topLevelInformation pnpApi)
                                                !! sdk.1))))
                BASE_SDKS)).
  { unfold absent_names. apply List.length_map. }
  rewrite <- Hlength. clear Hlength.
  destruct integrations as [requested preexisting].
  destruct options as [only_base is_verbose config].
  unfold generateSdk. cbn [requestedIntegrations preexistingIntegrations verbose configuration].
  rename requested into requestedIntegrations, preexisting into preexistingIntegrations,
         is_verbose into verbose, config into configuration.
  pose proof (absent_name_listed pnpApi P BASE_SDKS HP Habsent) as Hlisted.
  set (skipped := absent_names pnpApi BASE_SDKS) in *.
  pose proof (appends_clean_old_folder pnpApi configuration P) as Hold.
  pose proof (appends_clean_target_folder pnpApi P) as Htarget.
  pose proof (appends_update_files (not_for P)
                (persist (targetFolder pnpApi)
                   (set_integrations
                      (map Str (allIntegrations requestedIntegrations preexistingIntegrations))
                      new_IntegrationsFile))) as Hpersist.
  pose proof (appends_generate_sdks pnpApi requestedIntegrations preexistingIntegrations
                verbose configuration P Habsent) as Hsdks.
  pose proof (appends_generate_settings requestedIntegrations preexistingIntegrations P)
    as Hsettings.
  assert (Hrun : appends (generateSdk_body pnpApi requestedIntegrations
                            preexistingIntegrations verbose configuration) (not_for P)).
  { unfold generateSdk_body, generateSdk_from_target.
    repeat (apply appends_bind; [assumption | intros _]). assumption. }
  destruct (Hrun w) as (events & Hlog & Hok). exists events.
  split; [exact Hlog |]. split; [| split; [| split; [exact Hcounted |]]].
  - intros Hin. apply (proj1 (Forall_forall _ _) Hok) in Hin. now destruct Hin as [Hin _].
  - intros Hin. apply (proj1 (Forall_forall _ _) Hok) in Hin. now destruct Hin as [_ Hin].
  - intros Hret.
    destruct (generateSdk_body _ _ _ _ _ w) as [r w'] eqn:Hgen. cbn [fst snd] in Hret, Hlog.
    subst r. unfold generateSdk_body, generateSdk_from_target in Hgen.
    apply (bind_Return_log _ _ _ _ _ _ Hold) in Hgen as (u1 & w1 & e1 & _ & Hlog1 & Hgen).
    apply (bind_Return_log _ _ _ _ _ _ Htarget) in Hgen as (u2 & w2 & e2 & _ & Hlog2 & Hgen).
    apply (bind_Return_log _ _ _ _ _ _ Hpersist) in Hgen as (u3 & w3 & e3 & _ & Hlog3 & Hgen).
    apply bind_Return in Hgen as (u4 & w4 & Hgen & Hset).
    destruct (Hsettings w4) as (e5 & Hlog5 & _). rewrite Hset in Hlog5. cbn [snd] in Hlog5.
    unfold generate_sdks in Hgen.
    apply bind_Return in Hgen as (u5 & w3a & Hstart & Hgen).
    injection Hstart as _ <-.
    apply (bind_Return_log _ _ _ _ _ (not_for P)) in Hgen
      as (u6 & w3b & e4 & _ & Hlog4 & Hgen);
      [| apply appends_for_of; intros sdks; apply appends_generate_default_wrapper].
    apply (bind_Return_log _ _ _ _ _ (not_for P)) in Hgen
      as (result & w3c & e4' & Hbase & Hlog4' & Hgen);
      [| now apply appends_generate_base_wrappers].
    apply generate_base_wrappers_skipped in Hbase. cbn [app] in Hbase. subst result.
    rewrite report_skipped_eq in Hgen. injection Hgen as _ Hw4.
    rewrite <- Hw4 in Hlog5. cbn [log] in Hlog5, Hlog4. fold skipped in Hlog5.
    rewrite Hlog4', Hlog4, Hlog3, Hlog2, Hlog1, Hlog in Hlog5.
    rewrite <- !app_assoc in Hlog5. apply app_inv_head in Hlog5. subst events.
    assert (Hreport : (if verbose then skipped_item (getDisplayName P)
                       else skipped_count (length skipped))
                      ∈ skipped_report verbose skipped).
    { unfold skipped_report. destruct skipped as [| x xs] eqn:Hskipped.
      - now apply elem_of_nil in Hlisted.
      - cbn [length Nat.ltb Nat.leb]. destruct verbose.
        + now apply list_elem_of_In, in_map, list_elem_of_In.
        + now left. }
    assert (Hin : forall e, e ∈ skipped_report verbose skipped ->
                            e ∈ e1 ++ e2 ++ e3 ++ [startTimer
                                   ("Generating SDKs inside "
                                    +:+ format_PATH configuration SDK_FOLDER)]
                                 ++ e4 ++ e4' ++ skipped_report verbose skipped ++ e5).
    { intros e He. rewrite !elem_of_app. tauto. }
    destruct verbose; now apply Hin.
Qed.

Lemma absent_base_sdk_is_skipped_witness :
  let run :=
    @generateSdk Sample.host Sample.sdks Sample.project
      {| requestedIntegrations := ["vscode"]; preexistingIntegrations := [] |}
      {| onlyBase := false; verbose := true; configuration := Sample.plain |}
      (Sample.world Sample.empty_fs) in
  run.1 = Return tt
  /\ (reportWarning "• Eslint (dependency not found; skipped)" ∈ log run.2)
  /\ (base_wrapper_called "eslint" ∉ log run.2)
  /\ (integration_wrapper_called "eslint" ∉ log run.2).
Proof.
  cbv zeta.
  assert (HP : "eslint" ∈ (@BASE_SDKS Sample.host Sample.sdks).*1).
  { apply list_elem_of_In. simpl. tauto. }
  pose proof (@absent_base_sdk_is_skipped Sample.host Sample.sdks Sample.project
                {| requestedIntegrations := ["vscode"]; preexistingIntegrations := [] |}
                {| onlyBase := false; verbose := true; configuration := Sample.plain |}
                "eslint" (Sample.world Sample.empty_fs) HP eq_refl) as Hrun.
  cbv zeta in Hrun. destruct Hrun as (events & Hlog & Hbase & Hintegration & _ & Hreport).
  assert (Hreturn : (@generateSdk Sample.host Sample.sdks Sample.project
                       {| requestedIntegrations := ["vscode"]; preexistingIntegrations := [] |}
                       {| onlyBase := false; verbose := true; configuration := Sample.plain |}
                       (Sample.world Sample.empty_fs)).1 = Return tt)
    by (vm_compute; reflexivity).
  split; [exact Hreturn |]. rewrite Hlog. repeat split.
  - exact (Hreport Hreturn).
  - exact Hbase.
  - exact Hintegration.
Defined.


(** C10. The option [onlyBase] has no effect: two runs whose options agree
    on [verbose] and [configuration], on the same project, integrations,
    filesystem and report, end in the same outcome, the same filesystem and
    the same report, whatever [onlyBase] is in each. *)
Theorem onlyBase_has_no_effect `{Sdks} (pnpApi : PnpApi) (integrations : AllIntegrations)
    (options options' : Options) (w : World) :
  verbose options = verbose options' ->
  configuration options = configuration options' ->
  generateSdk pnpApi integrations options w = generateSdk pnpApi integrations options' w.
Proof.
  intros Hverbose Hconfiguration. unfold generateSdk.
  now rewrite Hverbose, Hconfiguration.
Qed.

Lemma onlyBase_has_no_effect_witness :
  @generateSdk Sample.host Sample.sdks Sample.project
    {| requestedIntegrations := ["vscode"]; preexistingIntegrations := ["vim"] |}
    {| onlyBase := true; verbose := false; configuration := Sample.plain |}
    (Sample.world Sample.empty_fs)
  = @generateSdk Sample.host Sample.sdks Sample.project
      {| requestedIntegrations := ["vscode"]; preexistingIntegrations := ["vim"] |}
      {| onlyBase := false; verbose := false; configuration := Sample.plain |}
      (Sample.world Sample.empty_fs).
Proof.
  apply (@onlyBase_has_no_effect Sample.host Sample.sdks Sample.project
           {| requestedIntegrations := ["vscode"]; preexistingIntegrations := ["vim"] |}
           {| onlyBase := true; verbose := false; configuration := Sample.plain |}
           {| onlyBase := false; verbose := false; configuration := Sample.plain |}
           (Sample.world Sample.empty_fs)); reflexivity.
Defined.

(** ** The run of the example project

    Requested integrations [vscode], none recorded before, a top level that
    depends on [typescript] and not on [eslint], an empty filesystem. *)

Example example_run_report :
  log (@generateSdk Sample.host Sample.sdks Sample.project
         {| requestedIntegrations := ["vscode"]; preexistingIntegrations := [] |}
         {| onlyBase := false; verbose := false; configuration := Sample.plain |}
         (Sample.world Sample.empty_fs)).2
  = [ startTimer "Generating SDKs inside .yarn/sdks";
      default_wrapper_called;
      reportInfo "✓ Typescript";
      base_wrapper_called "typescript";
      integration_wrapper_called "typescript";
      reportWarning "• 1 SDKs were skipped based on your root dependencies";
      startTimer "Generating settings";
      reportInfo "✓ Vscode (new ✨)" ].
Proof. vm_compute. reflexivity. Qed.

Example example_run_files :
  let after := files (@generateSdk Sample.host Sample.sdks Sample.project
                        {| requestedIntegrations := ["vscode"]; preexistingIntegrations := [] |}
                        {| onlyBase := false; verbose := false; configuration := Sample.plain |}
                        (Sample.world Sample.empty_fs)).2 in
  after "/project/.yarn/sdks/integrations.yml"
    = Some (Sample.File (BANNER +:+ "integrations:" +:+ LF +:+ "  - vscode" +:+ LF))
  /\ after "/project/.yarn/sdks/typescript/package.json"
      = Some (Sample.File ("name: typescript" +:+ LF +:+ "version: 4.1.2-pnpify" +:+ LF
                           +:+ "main: ./lib/index.js" +:+ LF +:+ "type: commonjs" +:+ LF))
  /\ after "/project/.vscode/settings.json"
      = Some (Sample.File ".yarn/sdks/typescript/bin/tsc")
  /\ after "/project/.yarn/sdks/eslint" = None
  /\ after "/project/.yarn/sdks/eslint/package.json" = None
  /\ after "/project/.yarn/sdks/eslint/bin/eslint.js" = None.
Proof. vm_compute. repeat split. Qed.

(** The old folder as a directory and as a symbolic link. *)
Example example_old_folder :
  let run old :=
    @generateSdk Sample.host Sample.sdks Sample.project
      {| requestedIntegrations := []; preexistingIntegrations := [] |}
      {| onlyBase := false; verbose := false; configuration := Sample.plain |}
      (Sample.world (Sample.put "/project/.vscode/pnpify" old Sample.empty_fs)) in
  files (run Sample.Directory).2 "/project/.vscode/pnpify" = None
  /\ files (run (Sample.SymbolicLink "/elsewhere")).2 "/project/.vscode/pnpify"
      = Some (Sample.SymbolicLink "/elsewhere")
  /\ log (run (Sample.SymbolicLink "/elsewhere")).2
      = [ startTimer "Generating SDKs inside .yarn/sdks";
          reportInfo "✓ Typescript";
          base_wrapper_called "typescript";
          reportWarning "• 1 SDKs were skipped based on your root dependencies" ].
Proof. vm_compute. repeat split. Qed.

(** A wrapper asked for a path it wrote and for one it did not. *)
Example example_getProjectPathTo :
  let this := (@run_calls Sample.host
                 [call_writeBinary "bin/tsc" no_options; call_writeManifest]
                 (new_Wrapper "typescript" Sample.project "/project/.yarn/sdks",
                  Sample.empty_fs)).1 in
  getProjectPathTo "bin/tsc" this = Return ".yarn/sdks/typescript/bin/tsc"
  /\ getProjectPathTo "bin/tsserver" this = Throw unregistered_path_error.
Proof. vm_compute. repeat split. Qed.

(** * Further properties *)

(** ** Sets of values

    SameValueZero is sound for equality and, on the values that are no
    arrays and no objects, complete; the elements of a set are those of the
    array it was made of. *)

Lemma sameValueZero_sound (x y : value) : sameValueZero x y = true -> x = y.
Proof.
  destruct x, y; simpl; try discriminate; try reflexivity.
  - intros Hb. apply Bool.eqb_prop in Hb. now subst.
  - intros Hs. apply String.eqb_eq in Hs. now subst.
  - intros Hs. apply String.eqb_eq in Hs. now subst.
Qed.

Section SoundCollections.
Context {A : Type} (same : A -> A -> bool).
Hypothesis same_sound : forall x y, same x y = true -> x = y.

Lemma has_sound (x : A) (s : list A) : has same x s = true -> x ∈ s.
Proof.
  unfold has. rewrite existsb_exists, list_elem_of_In.
  intros (y & Hy & Hxy). apply same_sound in Hxy. now subst.
Qed.

Lemma elem_of_add_sound (x y : A) (s : list A) : y ∈ add same s x <-> y ∈ s \/ y = x.
Proof.
  unfold add. destruct (has same x s) eqn:Hhas.
  - apply has_sound in Hhas. split; [tauto | intros [? | ->]; assumption].
  - rewrite elem_of_app, list_elem_of_singleton. tauto.
Qed.

Lemma elem_of_fold_add_sound (xs acc : list A) (y : A) :
  y ∈ fold_left (add same) xs acc <-> y ∈ acc \/ y ∈ xs.
Proof.
  revert acc. induction xs as [| x xs IH]; intros acc; simpl.
  - rewrite elem_of_nil. tauto.
  - rewrite IH, elem_of_add_sound, elem_of_cons. tauto.
Qed.

Lemma elem_of_Set_from_sound (xs : list A) (y : A) : y ∈ Set_from same xs <-> y ∈ xs.
Proof. unfold Set_from. rewrite elem_of_fold_add_sound, elem_of_nil. tauto. Qed.

End SoundCollections.

Lemma filter_nil_iff {A : Type} (f : A -> bool) (xs : list A) :
  List.filter f xs = [] <-> forall x, x ∈ xs -> f x = false.
Proof.
  induction xs as [| y xs IH]; simpl.
  - split; [intros _ x Hx; now apply elem_of_nil in Hx | reflexivity].
  - destruct (f y) eqn:Hy.
    + split; [discriminate |]. intros Hall. rewrite Hall in Hy; [discriminate | now left].
    + rewrite IH. split.
      * intros Hall x Hx. apply elem_of_cons in Hx as [-> | Hx]; auto.
      * intros Hall x Hx. apply Hall. now right.
Qed.

(** Strings given as values. *)
Lemma all_Str (xs : list value) :
  (forall x, x ∈ xs -> exists s, x = Str s) -> exists names, xs = map Str names.
Proof.
  induction xs as [| x xs IH]; intros Hall.
  - now exists [].
  - destruct (Hall x) as [s ->]; [now left |].
    destruct IH as [names ->]; [intros y Hy; apply Hall; now right |].
    now exists (s :: names).
Qed.

(** ** validateIntegrations and load, on any data *)

(** On primitives SameValueZero is equality. *)
Lemma sameValueZero_primitive (x y : value) :
  is_primitive x = true -> sameValueZero x y = true <-> x = y.
Proof.
  intros Hx. split; [apply sameValueZero_sound |]. intros <-.
  destruct x as [| | b | repr | s | items | fields]; try discriminate Hx; try reflexivity.
  - now destruct b.
  - apply String.eqb_refl.
  - apply String.eqb_refl.
Qed.

Lemma has_primitive (x : value) (s : list value) :
  is_primitive x = true -> has sameValueZero x s = true <-> x ∈ s.
Proof.
  intros Hx. unfold has. rewrite existsb_exists, list_elem_of_In. split.
  - intros (y & Hy & Hxy). apply sameValueZero_sound in Hxy. now subst.
  - intros Hin. exists x. split; [assumption | now apply sameValueZero_primitive].
Qed.

(** A set built from primitives holds each of them once. *)
Lemma NoDup_Set_from_primitives (xs : list value) :
  Forall (fun x => is_primitive x = true) xs -> NoDup (Set_from sameValueZero xs).
Proof.
  unfold Set_from. assert (Hacc : NoDup (@nil value)) by constructor. revert Hacc.
  generalize (@nil value) as acc.
  induction xs as [| x xs IH]; intros acc Hacc Hall; [assumption |].
  apply Forall_cons in Hall as [Hx Hall]. cbn [fold_left]. apply IH; [| assumption].
  unfold add. destruct (has sameValueZero x acc) eqn:Hhas; [assumption |].
  apply NoDup_app. repeat split; [assumption | | apply NoDup_singleton].
  intros y Hy Hyx. apply list_elem_of_singleton in Hyx. subst y.
  apply (has_primitive x acc Hx) in Hy. congruence.
Qed.

Section LoadAnyData.
Context `{Sdks}.

Lemma Map_has_supported (x : value) :
  Map_has x SUPPORTED_INTEGRATIONS = true <-> is_supported_value x.
Proof.
  unfold is_supported_value, Map_has, has. cbn [SUPPORTED_INTEGRATIONS map fst existsb].
  rewrite !orb_true_iff. split.
  - intros [Hx | [Hx | Hx]]; [| | discriminate]; apply sameValueZero_sound in Hx; auto.
  - intros [-> | ->]; auto.
Qed.

(** X1. [validateIntegrations] returns exactly when every element of the set
    is the string [vim] or the string [vscode]; a single element of another
    type or another name makes it throw. *)
Theorem validateIntegrations_returns_iff (integrations : list value) :
  validateIntegrations integrations = Return tt
  <-> forall x, x ∈ integrations -> is_supported_value x.
Proof.
  unfold validateIntegrations, unsupportedIntegrations.
  destruct (List.filter _ integrations) as [| bad rest] eqn:Hfilter; cbn [length Nat.ltb Nat.leb].
  - split; [intros _ | reflexivity]. intros x Hx.
    apply Map_has_supported. apply (proj1 (filter_nil_iff _ _) Hfilter) in Hx.
    now apply negb_false_iff in Hx.
  - split; [discriminate |]. intros Hall. exfalso.
    assert (Hbad : In bad (List.filter
                     (fun integration => negb (Map_has integration SUPPORTED_INTEGRATIONS))
                     integrations)) by (rewrite Hfilter; now left).
    apply filter_In in Hbad as [Hin Hneg]. apply list_elem_of_In, Hall, Map_has_supported in Hin.
    rewrite Hin in Hneg. discriminate.
Qed.

(** X2. Data that is an object or an array and carries no array under
    [integrations] (the key is missing, or holds a string, a mapping, ...) is
    taken without complaint: [raw] becomes the data and the set of the file
    is left as it was, not emptied. *)
Theorem load_without_array_keeps_set (data : value) (this : IntegrationsFile) :
  String.eqb (typeof data) "object" = true -> is_null data = false ->
  Array_isArray (get "integrations" data) = false ->
  load data this = (Return tt, {| integrations := integrations this; raw := data |}).
Proof.
  intros Hobj Hnull Harray. rewrite load_object by assumption. now rewrite Harray.
Qed.

(** X3. When [load] returns on data with an array of identifiers, the set
    of the file has no duplicates, has the elements of the array and no
    others, and each of them is [vim] or [vscode]: so every entry of the
    array was one of the two. *)
Theorem load_returns_with_supported_set (data : value) (this : IntegrationsFile) :
  (load data this).1 = Return tt ->
  Array_isArray (get "integrations" data) = true ->
  let s := integrations (load data this).2 in
  NoDup s
  /\ (forall x, x ∈ s <-> x ∈ elements (get "integrations" data))
  /\ (forall x, x ∈ elements (get "integrations" data) -> is_supported_value x).
Proof.
  intros Hret Harray.
  assert (Hobject : exists fields, data = Object fields).
  { destruct data; try discriminate Harray. now eexists. }
  destruct Hobject as [fields ->].
  rewrite load_object in Hret |- * by reflexivity. rewrite Harray in Hret |- *.
  cbn [fst snd integrations] in Hret |- *. cbv zeta.
  set (elems := elements (get "integrations" (Object fields))) in *.
  pose proof (elem_of_Set_from_sound _ sameValueZero_sound elems) as Hmem.
  pose proof (proj1 (validateIntegrations_returns_iff _) Hret) as Hvalid.
  assert (Hall : forall x, x ∈ elems -> is_supported_value x).
  { intros x Hx. now apply Hvalid, Hmem. }
  split; [| split; [exact Hmem | exact Hall]].
  destruct (all_Str elems) as [names Hnames].
  { intros x Hx. destruct (Hall x Hx) as [-> | ->]; now eexists. }
  rewrite Hnames, Set_from_Str. apply NoDup_fmap_2; [intros a b [= ->]; reflexivity |].
  apply NoDup_Set_from, String_eqb_spec.
Qed.

(** X4. When the validation fails, the file is not as it was: [load] has
    already replaced its set by the rejected one and [raw] by the data. For
    an array of primitives, of which one is not a supported identifier, the
    set the file is left with holds each element of the array once, the
    unsupported one among them. *)
Theorem load_rejected_set_stays (data : value) (elems : list value)
    (this : IntegrationsFile) :
  get "integrations" data = Array elems ->
  Forall (fun x => is_primitive x = true) elems ->
  (exists x, x ∈ elems /\ ~ is_supported_value x) ->
  exists e,
    load data this
    = (Throw e, {| integrations := Set_from sameValueZero elems; raw := data |})
    /\ class e = UsageErrorClass
    /\ NoDup (Set_from sameValueZero elems)
    /\ (forall x, x ∈ Set_from sameValueZero elems <-> x ∈ elems)
    /\ exists x, x ∈ Set_from sameValueZero elems /\ ~ is_supported_value x.
Proof.
  intros Hget Hprimitive (bad & Hbad & Hnot).
  destruct data as [| | b | repr | s | items | fields]; try discriminate Hget.
  rewrite load_object by reflexivity. rewrite Hget. cbn [Array_isArray elements]. cbv zeta.
  pose proof (elem_of_Set_from_sound _ sameValueZero_sound elems) as Hmem.
  assert (Hin : bad ∈ Set_from sameValueZero elems) by now apply Hmem.
  destruct (validateIntegrations (Set_from sameValueZero elems)) as [[] | e] eqn:Hvalidate.
  - exfalso. apply Hnot. now apply (proj1 (validateIntegrations_returns_iff _) Hvalidate).
  - exists e. split; [reflexivity |].
    split; [| split; [now apply NoDup_Set_from_primitives |
                      split; [exact Hmem | now exists bad]]].
    unfold validateIntegrations in Hvalidate.
    destruct (0 <? length _)%nat; [| discriminate]. now injection Hvalidate as <-.
Qed.

End LoadAnyData.

Lemma load_without_array_keeps_set_witness :
  @load Sample.host Sample.sdks (Object [("integrations", Str "vim")])
    {| integrations := [Str "vscode"]; raw := Object [] |}
  = (Return tt, {| integrations := [Str "vscode"];
                   raw := Object [("integrations", Str "vim")] |}).
Proof.
  apply (@load_without_array_keeps_set Sample.host Sample.sdks
           (Object [("integrations", Str "vim")])
           {| integrations := [Str "vscode"]; raw := Object [] |}); reflexivity.
Defined.

Lemma load_returns_with_supported_set_witness :
  let data := Object [("integrations", Array [Str "vscode"; Str "vim"; Str "vscode"])] in
  let s := integrations (@load Sample.host Sample.sdks data new_IntegrationsFile).2 in
  NoDup s
  /\ (forall x, x ∈ s <-> x ∈ elements (get "integrations" data))
  /\ (forall x, x ∈ elements (get "integrations" data) -> is_supported_value x).
Proof.
  apply (@load_returns_with_supported_set Sample.host Sample.sdks
           (Object [("integrations", Array [Str "vscode"; Str "vim"; Str "vscode"])])
           new_IntegrationsFile); reflexivity.
Defined.

Lemma load_rejected_set_stays_witness :
  let data := Object [("integrations", Array [Str "vim"; Number "3"; Str "vim"])] in
  exists e,
    @load Sample.host Sample.sdks data new_IntegrationsFile
    = (Throw e, {| integrations := [Str "vim"; Number "3"]; raw := data |})
    /\ class e = UsageErrorClass.
Proof.
  cbv zeta.
  destruct (@load_rejected_set_stays Sample.host Sample.sdks
              (Object [("integrations", Array [Str "vim"; Number "3"; Str "vim"])])
              [Str "vim"; Number "3"; Str "vim"] new_IntegrationsFile)
    as (e & Hload & Hclass & _).
  - reflexivity.
  - repeat constructor.
  - exists (Number "3"). split.
    + apply list_elem_of_In. simpl. tauto.
    + intros [Hvim | Hvscode]; discriminate.
  - exists e. split; [exact Hload | exact Hclass].
Defined.

(** ** exportTo *)

Lemma lookup_set_field (k k' : string) (v : value) (fields : list (string * value)) :
  lookup_field k' (set_field k v fields)
  = if String.eqb k' k then Some v else lookup_field k' fields.
Proof.
  induction fields as [| [k0 v0] fields IH]; cbn [set_field lookup_field].
  - now destruct (String.eqb k' k).
  - destruct (String.eqb_spec k k0) as [-> | Hne]; cbn [lookup_field].
    + now destruct (String.eqb k' k0).
    + rewrite IH. destruct (String.eqb_spec k' k0) as [-> | Hne'];
        [| reflexivity].
      destruct (String.eqb_spec k0 k) as [-> | _]; [contradiction | reflexivity].
Qed.

Lemma set_field_twice (k : string) (v : value) (fields : list (string * value)) :
  set_field k v (set_field k v fields) = set_field k v fields.
Proof.
  induction fields as [| [k0 v0] fields IH]; cbn [set_field].
  - now rewrite String.eqb_refl.
  - destruct (String.eqb k k0) eqn:Hk; cbn [set_field]; rewrite Hk; [reflexivity |].
    now rewrite IH.
Qed.

Lemma set_field_keys (k : string) (v : value) (fields : list (string * value)) :
  (set_field k v fields).*1
  = if has String.eqb k fields.*1 then fields.*1 else fields.*1 ++ [k].
Proof.
  induction fields as [| [k0 v0] fields IH]; [reflexivity |].
  cbn [set_field]. unfold has in *. cbn [fmap list_fmap fst existsb] in *.
  destruct (String.eqb k k0); cbn [fmap list_fmap fst orb]; [reflexivity |].
  change (list_fmap _ _ fst ?l) with (l.*1) in *. rewrite IH.
  now destruct (existsb (String.eqb k) fields.*1).
Qed.

(** X5. [exportTo] touches the key [integrations] and no other: every other
    key of the object it is handed reads as before. With a set that is not
    empty the key holds the array of the set afterwards; with an empty set
    the object is returned as it is, an [integrations] key it may already
    carry included. *)
Theorem exportTo_touches_integrations_only (this : IntegrationsFile)
    (data : list (string * value)) (key : string) :
  get key (Object (exportTo this data))
  = if String.eqb key "integrations" && (0 <? length (integrations this))%nat
    then Array (integrations this)
    else get key (Object data).
Proof.
  unfold exportTo, get. destruct (0 <? length (integrations this))%nat.
  - rewrite lookup_set_field, andb_true_r. now destruct (String.eqb key "integrations").
  - now rewrite andb_false_r.
Qed.

(** X6. [exportTo] keeps the keys of the object in their order, adds
    [integrations] at the end when the object has no such key and the set is
    not empty, and exporting a second time changes nothing. *)
Theorem exportTo_keys_and_idempotence (this : IntegrationsFile)
    (data : list (string * value)) :
  (exportTo this data).*1
    = (if (0 <? length (integrations this))%nat && negb (has String.eqb "integrations" data.*1)
       then data.*1 ++ ["integrations"] else data.*1)
  /\ exportTo this (exportTo this data) = exportTo this data.
Proof.
  unfold exportTo. destruct (0 <? length (integrations this))%nat; cbn [andb].
  - split; [| apply set_field_twice]. rewrite set_field_keys.
    now destruct (has String.eqb "integrations" data.*1).
  - split; reflexivity.
Qed.

(** ** loadFile and find *)

Section FileFacts.
Context `{Sdks}.

(** X7. [loadFile] changes the file only when the text was read and parsed
    to an object or an array, and then [raw] is what the parser returned: a
    failed read, a failed parse and a parsed scalar all leave the file as it
    was. *)
Theorem loadFile_changes_only_after_parsing (path : PortablePath) (fs : FS)
    (this : IntegrationsFile) :
  let after := (loadFile path fs this).2 in
  after = this
  \/ exists content data,
       readFilePromise path fs = Return content
       /\ parseSyml (if truthy content then content else "{}") = Return data
       /\ String.eqb (typeof data) "object" = true /\ is_null data = false
       /\ raw after = data.
Proof.
  cbv zeta. unfold loadFile.
  destruct (readFilePromise path fs) as [content | e]; [| now left].
  destruct (parseSyml _) as [data | e] eqn:Hparse; [| now left].
  destruct (String.eqb (typeof data) "object") eqn:Hobj;
    [destruct (is_null data) eqn:Hnull |].
  - left. unfold load. now rewrite Hobj, Hnull.
  - right. exists content, data. repeat (split; [assumption || reflexivity |]).
    rewrite load_object by assumption.
    now destruct (Array_isArray (get "integrations" data)).
  - left. unfold load. now rewrite Hobj.
Qed.

(** X8. An empty file is read as the empty mapping: where the parser reads
    [{}] as such, [loadFile] on a file without content returns, keeps the set
    of the file and makes [raw] the empty object. *)
Theorem loadFile_empty_file (path : PortablePath) (fs : FS) (this : IntegrationsFile) :
  readFilePromise path fs = Return "" ->
  parseSyml "{}" = Return (Object []) ->
  loadFile path fs this
  = (Return tt, {| integrations := integrations this; raw := Object [] |}).
Proof.
  intros Hread Hparse. unfold loadFile. rewrite Hread. cbn [truthy]. now rewrite Hparse.
Qed.

Lemma load_document_of_eq (names : list string) (this : IntegrationsFile) :
  NoDup names -> (forall x, x ∈ names -> supported x) ->
  load (document_of names) this
  = (Return tt,
     {| integrations := match names with [] => integrations this | _ => map Str names end;
        raw := document_of names |}).
Proof.
  intros Hnd Hall. destruct names as [| x names]; [reflexivity |].
  change (document_of (x :: names))
    with (Object [("integrations", Array (map Str (x :: names)))]).
  rewrite load_object by reflexivity.
  change (get "integrations" (Object [("integrations", Array (map Str (x :: names)))]))
    with (Array (map Str (x :: names))).
  cbn [Array_isArray elements]. rewrite (Set_from_Str (x :: names)).
  rewrite (Set_from_NoDup _ String_eqb_spec) by assumption.
  now rewrite (validateIntegrations_supported (x :: names)) by assumption.
Qed.

(** What [loadFile] finds where [persist] wrote. *)
Lemma loadFile_after_persist (names : list string) (dir : PortablePath) (fs : FS)
    (this that : IntegrationsFile) :
  reads_back_the_change -> syml_reads_back_the_document ->
  NoDup names -> (forall x, x ∈ names -> supported x) ->
  integrations this = map Str names ->
  loadFile (ppath_join [dir; INTEGRATIONS_FILE]) (persist dir this fs) that
  = load (document_of names) that.
Proof.
  intros Hfs Hsyml Hnd Hall Hset. unfold loadFile, persist. rewrite Hfs.
  change (truthy (BANNER +:+ _)) with true. cbv iota.
  replace (persisted_data this) with (document_of names)
    by (unfold document_of, persisted_data, exportTo; cbn [integrations]; now rewrite Hset).
  now rewrite Hsyml.
Qed.

(** X9. [find] after [persist]: on a filesystem that keeps what is written
    and with a parser that reads the printed documents back, a file with a
    set of supported identifiers persisted to the SDK folder of a project is
    found again by [find] on that project, with the same set; the [raw] of
    the found file is the written document. *)
Theorem find_after_persist (names : list string) (root : PortablePath) (fs : FS)
    (this : IntegrationsFile) :
  reads_back_the_change -> exists_after_the_change -> syml_reads_back_the_document ->
  NoDup names -> (forall x, x ∈ names -> supported x) ->
  integrations this = map Str names ->
  find root (persist (ppath_join [root; SDK_FOLDER]) this fs)
  = Return (Some {| integrations := map Str names; raw := document_of names |}).
Proof.
  intros Hfs Hexists Hsyml Hnd Hall Hset. unfold find.
  rewrite (loadFile_after_persist names) by assumption.
  unfold persist at 1. rewrite Hexists. cbn [negb].
  rewrite load_document_of_eq by assumption.
  now destruct names.
Qed.

(** X10. Loading does not empty a set. A file with an empty set persists as
    a document without the key [integrations]; read into a file that already
    holds a set, it returns and leaves that set in place. *)
Theorem reload_of_empty_set_keeps_set (dir : PortablePath) (fs : FS)
    (this that : IntegrationsFile) :
  reads_back_the_change -> syml_reads_back_the_document ->
  integrations this = [] ->
  loadFile (ppath_join [dir; INTEGRATIONS_FILE]) (persist dir this fs) that
  = (Return tt, {| integrations := integrations that; raw := Object [] |}).
Proof.
  intros Hfs Hsyml Hset.
  rewrite (loadFile_after_persist []); try assumption.
  - reflexivity.
  - constructor.
  - intros x Hx. now apply elem_of_nil in Hx.
Qed.

End FileFacts.

Lemma sample_exists_after_the_change : @exists_after_the_change Sample.host.
Proof.
  intros path content fs. simpl. unfold Sample.put. now rewrite String.eqb_refl.
Qed.

Lemma sample_supported_names (names : list string) :
  names ∈ [ []; ["vim"]; ["vscode"]; ["vim"; "vscode"]; ["vscode"; "vim"] ] ->
  forall x, x ∈ names -> @supported Sample.host Sample.sdks x.
Proof.
  intros Hnames x Hx. apply sample_supported.
  rewrite !elem_of_cons, elem_of_nil in Hnames.
  destruct Hnames as [-> | [-> | [-> | [-> | [-> | []]]]]];
    rewrite ?elem_of_cons, elem_of_nil in Hx; tauto.
Qed.

Lemma loadFile_empty_file_witness :
  @loadFile Sample.host Sample.sdks "/project/.yarn/sdks/integrations.yml"
    (Sample.put "/project/.yarn/sdks/integrations.yml" (Sample.File "") Sample.empty_fs)
    {| integrations := [Str "vim"]; raw := Object [("integrations", Array [Str "vim"])] |}
  = (Return tt, {| integrations := [Str "vim"]; raw := Object [] |}).
Proof.
  apply (@loadFile_empty_file Sample.host Sample.sdks); reflexivity.
Defined.

Lemma find_after_persist_witness :
  @find Sample.host Sample.sdks "/project"
    (@persist Sample.host "/project/.yarn/sdks"
       {| integrations := [Str "vscode"; Str "vim"]; raw := Object [] |} Sample.empty_fs)
  = Return (Some {| integrations := [Str "vscode"; Str "vim"];
                    raw := document_of ["vscode"; "vim"] |}).
Proof.
  apply (@find_after_persist Sample.host Sample.sdks ["vscode"; "vim"] "/project"
           Sample.empty_fs {| integrations := [Str "vscode"; Str "vim"]; raw := Object [] |}
           sample_reads_back sample_exists_after_the_change sample_syml_reads_back).
  - apply NoDup_cons. split; [| apply NoDup_singleton].
    intros Hin. apply list_elem_of_singleton in Hin. discriminate.
  - apply sample_supported_names. rewrite !elem_of_cons. tauto.
  - reflexivity.
Defined.

Lemma reload_of_empty_set_keeps_set_witness :
  @loadFile Sample.host Sample.sdks "/project/.yarn/sdks/integrations.yml"
    (@persist Sample.host "/project/.yarn/sdks" new_IntegrationsFile Sample.empty_fs)
    {| integrations := [Str "vim"]; raw := Object [("integrations", Array [Str "vim"])] |}
  = (Return tt, {| integrations := [Str "vim"]; raw := Object [] |}).
Proof.
  apply (@reload_of_empty_set_keeps_set Sample.host Sample.sdks "/project/.yarn/sdks"
           Sample.empty_fs new_IntegrationsFile
           {| integrations := [Str "vim"]; raw := Object [("integrations", Array [Str "vim"])] |}
           sample_reads_back sample_syml_reads_back).
  reflexivity.
Defined.

(** ** Splitting and joining, and getDisplayName *)

(** X11. [getDisplayName] capitalizes word by word: where [capitalize] puts
    no space into a word, the words of the display name are the capitalized
    words of [startCase name], as many and in the same order. *)
Theorem getDisplayName_word_by_word `{Host} (name : string) :
  (forall w, lacks " " w = true -> lacks " " (capitalize w) = true) ->
  split " " (getDisplayName name) = map capitalize (split " " (startCase name)).
Proof.
  intros Hcapitalize. unfold getDisplayName. apply split_join.
  - pose proof (split_nonempty " " (startCase name)) as Hne.
    now destruct (split " " (startCase name)).
  - pose proof (split_lacks " " (startCase name)) as Hwords.
    induction Hwords as [| w ws Hw _ IH]; cbn [map]; constructor; auto.
Qed.

Lemma sample_case_keeps_space (c : ascii) :
  Ascii.eqb c " " = false ->
  Ascii.eqb (Sample.upper c) " " = false /\ Ascii.eqb (Sample.lower c) " " = false.
Proof.
  destruct c as [[] [] [] [] [] [] [] []]; intros Hc; try discriminate Hc;
    vm_compute; split; reflexivity.
Qed.

Lemma sample_capitalize_lacks_space (w : string) :
  lacks " " w = true -> lacks " " (@capitalize Sample.host w) = true.
Proof.
  destruct w as [| c w]; [reflexivity |]. cbn [lacks capitalize Sample.host Sample.capitalize_word].
  intros Hw. apply andb_true_iff in Hw as [Hc Hw]. apply negb_true_iff in Hc.
  rewrite (proj1 (sample_case_keeps_space c Hc)). cbn [negb andb].
  induction w as [| c' w IH]; [reflexivity |].
  cbn [lacks Sample.map_string] in Hw |- *.
  apply andb_true_iff in Hw as [Hc' Hw]. apply negb_true_iff in Hc'.
  rewrite (proj2 (sample_case_keeps_space c' Hc')). cbn [negb andb]. now apply IH.
Qed.

Lemma getDisplayName_word_by_word_witness :
  split " " (@getDisplayName Sample.host "typescript-language-server")
  = map (@capitalize Sample.host)
        (split " " (@startCase Sample.host "typescript-language-server")).
Proof.
  apply (@getDisplayName_word_by_word Sample.host "typescript-language-server").
  exact sample_capitalize_lacks_space.
Defined.

Example example_getDisplayName :
  @getDisplayName Sample.host "typescript-language-server" = "Typescript Language Server".
Proof. reflexivity. Qed.

(** ** The script template, whatever the options *)

Lemma trimStart_white (s : string) : all_white_space s = true -> trimStart s = "".
Proof.
  induction s as [| c s IH]; [reflexivity |]. cbn [all_white_space trimStart].
  intros Hs. apply andb_true_iff in Hs as [Hc Hs]. rewrite Hc. now apply IH.
Qed.

Lemma trim_white (s : string) : all_white_space s = true -> trim s = "".
Proof. intros Hs. unfold trim. now rewrite trimStart_white. Qed.

Ltac absent_line Hin :=
  apply list_elem_of_In in Hin; vm_compute in Hin;
  repeat (destruct Hin as [Hin | Hin]; [discriminate Hin |]); exact Hin.

(** A line of the text of a block, with its line feed, is a piece of the
    block. *)
Lemma block_line_own (line : string) :
  (line ∈ block_lines setup_env_block -> line +:+ LF ∈ own_lines setup_env_block)
  /\ (line ∈ block_lines use_pnpify_block -> line +:+ LF ∈ own_lines use_pnpify_block).
Proof.
  split; intros Hline; apply list_elem_of_In in Hline; vm_compute in Hline;
    repeat (destruct Hline as [<- | Hline];
            [apply list_elem_of_In; vm_compute; repeat ((left; reflexivity) || right) |]);
    contradiction.
Qed.

Lemma whole_line_blank :
  exists body, LF = body +:+ LF /\ one_line body = true.
Proof. now exists "". Qed.

Lemma whole_line_1 (a : string) :
  one_line a = true -> exists body, a +:+ LF = body +:+ LF /\ one_line body = true.
Proof. intros Ha. now exists a. Qed.

Lemma whole_line_2 (a b : string) :
  one_line a = true -> one_line b = true ->
  exists body, a +:+ b +:+ LF = body +:+ LF /\ one_line body = true.
Proof.
  intros Ha Hb. exists (a +:+ b). split; [now rewrite append_assoc |].
  unfold one_line in *. now rewrite lacks_append, Ha, Hb.
Qed.

Lemma whole_line_3 (a b c : string) :
  one_line a = true -> one_line b = true -> one_line c = true ->
  exists body, a +:+ b +:+ c +:+ LF = body +:+ LF /\ one_line body = true.
Proof.
  intros Ha Hb Hc. exists (a +:+ b +:+ c). split; [now rewrite !append_assoc |].
  unfold one_line in *. now rewrite !lacks_append, Ha, Hb, Hc.
Qed.

Section TemplateAnyOptions.
Context `{Host}.
Variables (relPnpApiPath : PortablePath) (module : string) (options : TemplateOptions).

(** A line proper to one of the two blocks is no line of the rest of the
    script: not of its fixed lines, not the definition of [moduleWrapper],
    not a line of the other block. *)
Lemma own_line_elsewhere (line : string) :
  line ∈ own_lines setup_env_block ++ own_lines use_pnpify_block ->
  line ∈ TEMPLATE_lines relPnpApiPath module options ->
  (default false (setupEnv options) = true /\ line ∈ own_lines setup_env_block)
  \/ (default false (usePnpify options) = true /\ line ∈ own_lines use_pnpify_block).
Proof.
  intros Hown Hin. unfold TEMPLATE_lines in Hin. cbv zeta in Hin.
  rewrite !elem_of_app in Hin.
  assert (Hcases : line ∈ own_lines setup_env_block \/ line ∈ own_lines use_pnpify_block)
    by now apply elem_of_app.
  assert (Hlines : In line (own_lines setup_env_block ++ own_lines use_pnpify_block))
    by now apply list_elem_of_In.
  vm_compute in Hlines.
  destruct Hin as [Hin | [Hin | [Hin | [Hin | [Hin | Hin]]]]].
  - exfalso. repeat (destruct Hlines as [<- | Hlines]; [absent_line Hin |]). exact Hlines.
  - exfalso. destruct (wrapModule_truthy (wrapModule options));
      [| now apply elem_of_nil in Hin].
    unfold wrapper_block in Hin. apply elem_of_cons in Hin as [-> | Hin].
    + repeat (destruct Hlines as [Hline | Hlines]; [discriminate Hline |]). exact Hlines.
    + repeat (destruct Hlines as [<- | Hlines]; [absent_line Hin |]). exact Hlines.
  - exfalso. repeat (destruct Hlines as [<- | Hlines]; [absent_line Hin |]). exact Hlines.
  - destruct (default false (setupEnv options)); [| now apply elem_of_nil in Hin].
    left. split; [reflexivity |]. destruct Hcases as [Henv | Hpnp]; [assumption |].
    exfalso. apply list_elem_of_In in Hpnp. vm_compute in Hpnp.
    repeat (destruct Hpnp as [<- | Hpnp]; [absent_line Hin |]). exact Hpnp.
  - destruct (default false (usePnpify options)); [| now apply elem_of_nil in Hin].
    right. split; [reflexivity |]. destruct Hcases as [Henv | Hpnp]; [| assumption].
    exfalso. apply list_elem_of_In in Henv. vm_compute in Henv.
    repeat (destruct Henv as [<- | Henv]; [absent_line Hin |]). exact Henv.
  - exfalso. destruct (wrapModule_truthy (wrapModule options)).
    + repeat (destruct Hlines as [<- | Hlines]; [absent_line Hin |]). exact Hlines.
    + repeat (destruct Hlines as [<- | Hlines]; [absent_line Hin |]). exact Hlines.
Qed.

(** When what the template interpolates holds no line feed, every piece
    it joins is one line. *)
Lemma TEMPLATE_pieces_one_line :
  one_line_inputs relPnpApiPath module options = true ->
  Forall (fun piece => exists body, piece = body +:+ LF /\ one_line body = true)
         (TEMPLATE_lines relPnpApiPath module options).
Proof.
  unfold one_line_inputs. intros Hinputs.
  apply andb_true_iff in Hinputs as [Hinputs Hsource].
  apply andb_true_iff in Hinputs as [Hpath Hmodule].
  unfold TEMPLATE_lines, wrapper_block, setup_env_block, use_pnpify_block, export_line.
  cbv zeta.
  destruct (wrapModule_truthy (wrapModule options));
    destruct (default false (setupEnv options));
    destruct (default false (usePnpify options));
    cbn [app];
    repeat (apply Forall_cons; split;
            [first [ apply whole_line_blank
                   | apply whole_line_1; reflexivity
                   | apply whole_line_2; [reflexivity | assumption]
                   | apply whole_line_3; [reflexivity | assumption | reflexivity] ] |]);
    constructor.
Qed.

(** A line of a block that is a line of the script, when the pieces of the
    script are one line each, is there because the flag of its block is
    set. *)
Lemma block_line_in_script (line : string) :
  one_line_inputs relPnpApiPath module options = true ->
  line ∈ script_lines (TEMPLATE relPnpApiPath module options) ->
  (line ∈ block_lines setup_env_block -> default false (setupEnv options) = true)
  /\ (line ∈ block_lines use_pnpify_block -> default false (usePnpify options) = true).
Proof.
  intros Hinputs Hline. unfold TEMPLATE in Hline.
  apply script_line_of_pieces in Hline; [| now apply TEMPLATE_pieces_one_line].
  destruct (block_line_own line) as [Hown_env Hown_pnp].
  split; intros Hblock.
  - destruct Hline as [-> | Hline].
    { apply list_elem_of_In in Hblock. vm_compute in Hblock.
      repeat (destruct Hblock as [Hblock | Hblock]; [discriminate Hblock |]).
      contradiction. }
    destruct (own_line_elsewhere (line +:+ LF)) as [[Hon _] | [_ Hpnp]];
      [apply elem_of_app; left; now apply Hown_env | assumption | assumption |].
    exfalso. specialize (Hown_env Hblock).
    remember (line +:+ LF) as piece eqn:Hpiece in Hown_env, Hpnp. clear Hpiece.
    apply list_elem_of_In in Hown_env, Hpnp. vm_compute in Hown_env, Hpnp.
    repeat (destruct Hown_env as [<- | Hown_env];
            [repeat (destruct Hpnp as [Hpnp | Hpnp]; [discriminate Hpnp |]); exact Hpnp |]).
    exact Hown_env.
  - destruct Hline as [-> | Hline].
    { apply list_elem_of_In in Hblock. vm_compute in Hblock.
      repeat (destruct Hblock as [Hblock | Hblock]; [discriminate Hblock |]).
      contradiction. }
    destruct (own_line_elsewhere (line +:+ LF)) as [[_ Henv] | [Hon _]];
      [apply elem_of_app; right; now apply Hown_pnp | assumption | | assumption].
    exfalso. specialize (Hown_pnp Hblock).
    remember (line +:+ LF) as piece eqn:Hpiece in Hown_pnp, Henv. clear Hpiece.
    apply list_elem_of_In in Hown_pnp, Henv. vm_compute in Hown_pnp, Henv.
    repeat (destruct Hown_pnp as [<- | Hown_pnp];
            [repeat (destruct Henv as [Henv | Henv]; [discriminate Henv |]); exact Henv |]).
    exact Hown_pnp.
Qed.

(** X12. Each block follows its own flag, whatever the other options are.
    With [setupEnv] true the text of the environment block is in the text
    of the script; with [setupEnv] false or absent a line proper to the
    block can be a line of the script only when the rendering of the path,
    the module name or the source of [wrapModule] brings a line feed with
    it. The same holds for [usePnpify] and the patch block, and when both
    are set the patch block comes right after the environment block. *)
Theorem TEMPLATE_blocks_follow_flags :
  let text := TEMPLATE relPnpApiPath module options in
  (if default false (setupEnv options)
   then occurs_in (join "" setup_env_block) text
   else Forall (fun line => line ∈ script_lines text ->
                            one_line_inputs relPnpApiPath module options = false)
               (block_lines setup_env_block))
  /\ (if default false (usePnpify options)
      then occurs_in (join "" use_pnpify_block) text
      else Forall (fun line => line ∈ script_lines text ->
                               one_line_inputs relPnpApiPath module options = false)
                  (block_lines use_pnpify_block))
  /\ (if default false (setupEnv options) && default false (usePnpify options)
      then occurs_in (join "" setup_env_block +:+ join "" use_pnpify_block) text
      else True).
Proof.
  cbv zeta. split; [| split].
  - destruct (default false (setupEnv options)) eqn:Henv.
    + unfold TEMPLATE, TEMPLATE_lines. cbv zeta. rewrite Henv.
      rewrite !join_empty_app.
      do 3 apply occurs_in_append_r. apply occurs_in_append_l, occurs_in_refl.
    + apply Forall_forall. intros line Hblock Hline.
      destruct (one_line_inputs relPnpApiPath module options) eqn:Hinputs; [| reflexivity].
      destruct (block_line_in_script line Hinputs Hline) as [Hon _].
      specialize (Hon Hblock). congruence.
  - destruct (default false (usePnpify options)) eqn:Hpnp.
    + unfold TEMPLATE, TEMPLATE_lines. cbv zeta. rewrite Hpnp.
      rewrite !join_empty_app.
      do 4 apply occurs_in_append_r. apply occurs_in_append_l, occurs_in_refl.
    + apply Forall_forall. intros line Hblock Hline.
      destruct (one_line_inputs relPnpApiPath module options) eqn:Hinputs; [| reflexivity].
      destruct (block_line_in_script line Hinputs Hline) as [_ Hon].
      specialize (Hon Hblock). congruence.
  - destruct (default false (setupEnv options)) eqn:Henv;
      destruct (default false (usePnpify options)) eqn:Hpnp; cbn [andb]; try exact I.
    unfold TEMPLATE, TEMPLATE_lines. cbv zeta. rewrite Henv, Hpnp.
    rewrite !join_empty_app.
    do 3 apply occurs_in_append_r. rewrite <- append_assoc.
    apply occurs_in_append_l, occurs_in_refl.
Qed.

(** X13. Whatever the options, the script starts with the line that names
    the interpreter, and every piece the template joins ends with a line
    feed: the text is a sequence of whole lines. *)
Theorem TEMPLATE_shebang_and_whole_lines :
  (exists rest, TEMPLATE relPnpApiPath module options = "#!/usr/bin/env node" +:+ LF +:+ rest)
  /\ Forall (fun line => exists body, line = body +:+ LF)
            (TEMPLATE_lines relPnpApiPath module options).
Proof.
  split.
  - unfold TEMPLATE, TEMPLATE_lines. cbv zeta.
    match goal with
    | |- exists rest, join "" ((?first :: ?others) ++ ?more) = _ =>
        exists (join "" (others ++ more));
        change ((first :: others) ++ more) with (first :: (others ++ more))
    end.
    now rewrite join_empty_cons, append_assoc.
  - assert (Hblank : exists body, LF = body +:+ LF) by (now exists "").
    assert (Hline : forall body, exists body', body +:+ LF = body' +:+ LF) by (intros; eauto).
    assert (Hline' : forall a b, exists body', a +:+ b +:+ LF = body' +:+ LF).
    { intros a b. exists (a +:+ b). now rewrite append_assoc. }
    assert (Hline'' : forall a b c, exists body', a +:+ b +:+ c +:+ LF = body' +:+ LF).
    { intros a b c. exists (a +:+ b +:+ c). now rewrite !append_assoc. }
    unfold TEMPLATE_lines, wrapper_block, setup_env_block, use_pnpify_block, export_line.
    cbv zeta.
    destruct (wrapModule_truthy (wrapModule options));
      destruct (default false (setupEnv options));
      destruct (default false (usePnpify options));
      cbn [app]; repeat constructor; auto.
Qed.

(** X14. A [wrapModule] of white space only is still truthy: the text of
    the script then has a line that defines [moduleWrapper] with nothing
    after the equals sign, and ends with the export through it. *)
Theorem TEMPLATE_blank_wrapModule (source : string) :
  wrapModule options = Some source ->
  source <> "" -> all_white_space source = true ->
  let text := TEMPLATE relPnpApiPath module options in
  exists before between,
    text = before +:+ LF +:+ "const moduleWrapper = " +:+ LF +:+ between
           +:+ "module.exports = moduleWrapper(absRequire(`" +:+ module +:+ "`));" +:+ LF.
Proof.
  intros Hwrap Hsource Hwhite. cbv zeta.
  assert (Htruthy : wrapModule_truthy (wrapModule options) = true).
  { rewrite Hwrap. destruct source; [contradiction | reflexivity]. }
  destruct (TEMPLATE_text_wrapped relPnpApiPath module options Htruthy)
    as (before & between & Htext).
  rewrite Hwrap in Htext. change (default "" (Some source)) with source in Htext.
  rewrite trim_white in Htext by assumption.
  exists before, between. rewrite Htext. now rewrite !append_assoc.
Qed.

End TemplateAnyOptions.

Lemma TEMPLATE_blank_wrapModule_witness :
  let options := {| setupEnv := None; usePnpify := None; wrapModule := Some ("  " +:+ LF) |} in
  let text := @TEMPLATE Sample.host ".." "eslint/lib/api.js" options in
  exists before between,
    text = before +:+ LF +:+ "const moduleWrapper = " +:+ LF +:+ between
           +:+ "module.exports = moduleWrapper(absRequire(`eslint/lib/api.js`));" +:+ LF.
Proof.
  apply (@TEMPLATE_blank_wrapModule Sample.host ".." "eslint/lib/api.js"
           {| setupEnv := None; usePnpify := None; wrapModule := Some ("  " +:+ LF) |}
           ("  " +:+ LF)); [reflexivity | discriminate | reflexivity].
Defined.

(** ** Wrapper, beyond the registered paths *)


Section WrapperMore.
Context `{Host}.


(** X16. [writeFile] either goes through or leaves no record. When making
    the folder or writing the file rejects, the call throws that error and
    the wrapper is as before, with no path added. When the call returns,
    it returns the path [target/name/relPackagePath], the path is
    registered under [relPackagePath], and on a filesystem that keeps what
    is written the file at the returned path holds the template rendered
    for the module [name/relPackagePath], with the path of the resolution
    bootstrap taken relative to the folder of the written file. *)
Theorem writeFile_then_read (relPackagePath : PortablePath) (options : TemplateOptions)
    (this : Wrapper) (fs : FS) :
  reads_back_the_write ->
  let run := writeFile relPackagePath options (this, fs) in
  let path := ppath_join [target this; name this; relPackagePath] in
  let folder := ppath_dirname path in
  match run.1 with
  | Throw e =>
      run.2.1 = this
      /\ (mkdirPromise_recursive_rejects folder fs = Some e
          \/ writeFilePromise_rejects path (mkdirPromise_recursive folder fs) = Some e)
  | Return returned_path =>
      returned_path = path
      /\ mkdirPromise_recursive_rejects folder fs = None
      /\ writeFilePromise_rejects path (mkdirPromise_recursive folder fs) = None
      /\ paths run.2.1 !! relPackagePath = Some (project_path_of this relPackagePath)
      /\ readFilePromise path run.2.2
         = Return (TEMPLATE
                     (ppath_relative folder
                        (npath_toPortablePath (resolveRequest_pnpapi (pnpApi this))))
                     (ppath_join [name this; relPackagePath]) options)
  end.
Proof.
  intros Hfs. cbv zeta.
  pose proof (writeFile_eq relPackagePath options this fs) as Heq. cbv zeta in Heq.
  rewrite Heq.
  destruct (mkdirPromise_recursive_rejects _ fs) as [e |] eqn:Hmkdir.
  { cbn [fst snd]. split; [reflexivity | now left]. }
  destruct (writeFilePromise_rejects _ _) as [e |] eqn:Hwrite.
  { cbn [fst snd]. split; [reflexivity | now right]. }
  cbn [fst snd]. repeat split.
  - cbn [paths register_path]. apply lookup_insert_eq.
  - apply Hfs.
Qed.

Lemma run_call_identity (c : wrapper_call) (this : Wrapper) (fs : FS) :
  let this' := (run_call c (this, fs)).2.1 in
  name this' = name this /\ pnpApi this' = pnpApi this /\ target this' = target this.
Proof.
  cbv zeta. rewrite run_call_this.
  destruct c as [| rel options | rel options]; [easy | |]; now destruct (returned _).
Qed.

(** X17. No call changes what a wrapper is or forgets a path: after any
    calls of [writeManifest], [writeFile] and [writeBinary], thrown
    assertions included, the name, the resolution handle and the target of
    the wrapper are the same, and every path that was registered before is
    registered still. *)
Theorem wrapper_calls_keep_identity (calls : list wrapper_call) (this : Wrapper) (fs : FS) :
  let this' := (run_calls calls (this, fs)).1 in
  name this' = name this /\ pnpApi this' = pnpApi this /\ target this' = target this
  /\ forall p, is_Some (paths this !! p) -> is_Some (paths this' !! p).
Proof.
  cbv zeta. split; [| split; [| split]].
  1-3: revert this fs; induction calls as [| c calls IH]; intros this fs; [reflexivity |];
       cbn [run_calls]; destruct (run_call c (this, fs)) as [r [this1 fs1]] eqn:Hcall;
       pose proof (run_call_identity c this fs) as Hid; rewrite Hcall in Hid;
       cbn [fst snd] in Hid |- *; rewrite IH; tauto.
  intros p Hp. destruct (run_calls_paths calls this fs p) as [_ ->].
  now destruct (bool_decide _).
Qed.

End WrapperMore.

Lemma sample_reads_back_the_write : @reads_back_the_write Sample.host.
Proof.
  intros path content fs. simpl. unfold Sample.read, Sample.put.
  now rewrite String.eqb_refl.
Qed.

Lemma when_returned {A : Type} (r : outcome exn A) (P : A -> Prop) (Q : exn -> Prop) :
  match r with Return a => P a | Throw e => Q e end ->
  returned r = true -> exists a, r = Return a /\ P a.
Proof. destruct r as [a | e]; [now exists a | discriminate]. Qed.

Lemma writeFile_then_read_witness :
  let this := new_Wrapper "typescript" Sample.project "/project/.yarn/sdks" in
  let run := @writeFile Sample.host "lib/tsc.js" no_options (this, Sample.empty_fs) in
  run.1 = Return "/project/.yarn/sdks/typescript/lib/tsc.js"
  /\ paths run.2.1 !! "lib/tsc.js" = Some ".yarn/sdks/typescript/lib/tsc.js"
  /\ Sample.read "/project/.yarn/sdks/typescript/lib/tsc.js" run.2.2
     = Return (@TEMPLATE Sample.host
                 (Sample.relative (Sample.dirname "/project/.yarn/sdks/typescript/lib/tsc.js")
                    "/project/.pnp.js")
                 "typescript/lib/tsc.js" no_options).
Proof.
  cbv zeta.
  pose proof (@writeFile_then_read Sample.host "lib/tsc.js" no_options
                (new_Wrapper "typescript" Sample.project "/project/.yarn/sdks")
                Sample.empty_fs sample_reads_back_the_write) as Hrun.
  cbv zeta in Hrun. apply when_returned in Hrun; [| vm_compute; reflexivity].
  destruct Hrun as (returned_path & Hreturned & Hpath & _ & _ & Hpaths & Hread).
  split; [exact (eq_trans Hreturned (f_equal Return Hpath)) |].
  split; [exact Hpaths | exact Hread].
Defined.

(** ** generateSdk: the events of a run, in order *)

Section TraceFacts.
Context `{Host}.

Lemma traces_at_ret {A : Type} (a : A) (w : World) : traces_at (ret a) w [].
Proof. exists []. split; [now rewrite app_nil_r | reflexivity]. Qed.

Lemma traces_at_emit (e : event) (w : World) : traces_at (emit e) w [e].
Proof. exists [e]. now split. Qed.

Lemma traces_at_on_files {A : Type} (m : M FS A) (w : World) : traces_at (on_files m) w [].
Proof.
  exists []. unfold on_files. destruct (m (files w)) as [[a | e] fs]; cbn [fst snd log];
    (split; [now rewrite app_nil_r | reflexivity]).
Qed.

Lemma traces_at_bind {A B : Type} (m : M World A) (k : A -> M World B) (w : World)
    (first second : list event) :
  traces_at m w first ->
  (forall a w', m w = (Return a, w') -> traces_at (k a) w' second) ->
  traces_at (bind m k) w (first ++ second).
Proof.
  intros (events & Hlog & Hm) Hk. unfold traces_at, bind.
  destruct (m w) as [[a | e] w1]; cbn [fst snd] in *.
  - subst events. destruct (Hk a w1 eq_refl) as (events' & Hlog' & Hk').
    exists (first ++ events'). split; [now rewrite Hlog', Hlog, app_assoc |].
    destruct (k a w1) as [[b | e] w2]; cbn [fst] in *.
    + now subst events'.
    + now apply prefix_app.
  - exists events. split; [assumption | now apply prefix_app_r].
Qed.

Lemma traces_at_for_of {A : Type} (xs : list A) (body : A -> M World unit)
    (expected : A -> list event) (w : World) :
  (forall x w', traces_at (body x) w' (expected x)) ->
  traces_at (for_of xs body) w (flat_map expected xs).
Proof.
  intros Hbody. revert w. induction xs as [| x xs IH]; intros w; cbn [for_of flat_map].
  - apply traces_at_ret.
  - apply traces_at_bind; [apply Hbody | intros _ w' _; apply IH].
Qed.

End TraceFacts.

Section RunFacts.
Context `{Sdks}.
Variables (pnpApi : PnpApi) (requestedIntegrations preexistingIntegrations : list string).
Variables (verbose : bool) (configuration : Configuration).

Lemma traces_generate_default_wrapper (sdks : list IntegrationSdk) (w : World) :
  traces_at (generate_default_wrapper pnpApi sdks) w (default_events sdks).
Proof.
  unfold generate_default_wrapper, default_events.
  destruct (List.find is_default_sdk sdks) as [[[generate |] | pkgName generate] |];
    try apply traces_at_ret.
  apply (traces_at_bind _ _ _ [default_wrapper_called] []);
    [apply traces_at_emit | intros _ w' _; apply traces_at_on_files].
Qed.

Lemma traces_generate_integration_wrappers (pkgName : SupportedSdk)
    (tables : list (list IntegrationSdk)) (wrapper : Wrapper) (w : World) :
  traces_at (generate_integration_wrappers pnpApi pkgName tables wrapper) w
            (flat_map (integration_events pkgName) tables).
Proof.
  revert wrapper w.
  induction tables as [| sdks tables IH]; intros wrapper w;
    cbn [generate_integration_wrappers flat_map].
  - apply traces_at_ret.
  - unfold integration_events at 1.
    destruct (List.find (is_sdk_of pkgName) sdks) as [[generate | pkg [generate |]] |];
      try apply IH.
    apply (traces_at_bind _ _ _ [integration_wrapper_called pkgName]);
      [apply traces_at_emit | intros _ w1 _].
    apply (traces_at_bind _ _ _ []); [apply traces_at_on_files | intros wrapper' w2 _].
    apply IH.
Qed.

Lemma traces_generate_base_wrappers (sdks : list (SupportedSdk * GenerateBaseWrapper))
    (skipped : list string) (w : World) :
  traces_at (generate_base_wrappers pnpApi requestedIntegrations preexistingIntegrations
               sdks skipped) w
            (flat_map (base_events pnpApi requestedIntegrations preexistingIntegrations) sdks).
Proof.
  revert skipped w. induction sdks as [| [pkgName generate] sdks IH]; intros skipped w;
    cbn [generate_base_wrappers flat_map].
  - apply traces_at_ret.
  - unfold base_events at 1. cbn [fst].
    destruct (bool_decide (is_Some _)); [| apply IH].
    rewrite <- app_assoc. cbn [app].
    apply (traces_at_bind _ _ _ [_]); [apply traces_at_emit | intros _ w1 _].
    apply (traces_at_bind _ _ _ [_]); [apply traces_at_emit | intros _ w2 _].
    apply (traces_at_bind _ _ _ []); [apply traces_at_on_files | intros wrapper w3 _].
    apply traces_at_bind; [apply traces_generate_integration_wrappers | intros _ w4 _].
    apply IH.
Qed.

Lemma traces_generate_sdks (w : World) :
  traces_at (generate_sdks pnpApi requestedIntegrations preexistingIntegrations verbose
               configuration) w
            (generation_events pnpApi requestedIntegrations preexistingIntegrations verbose
               configuration).
Proof.
  unfold generate_sdks, generation_events.
  apply traces_at_bind; [apply traces_at_emit | intros _ w1 _].
  apply traces_at_bind;
    [apply traces_at_for_of; intros sdks w'; apply traces_generate_default_wrapper
    | intros _ w2 _].
  apply traces_at_bind; [apply traces_generate_base_wrappers | intros skipped w3 Hbase].
  apply generate_base_wrappers_skipped in Hbase. cbn [app] in Hbase. subst skipped.
  unfold traces_at. rewrite report_skipped_eq. cbn [fst snd log]. now eexists.
Qed.

Lemma traces_generate_settings (w : World) :
  traces_at (generate_settings requestedIntegrations preexistingIntegrations) w
            (settings_events requestedIntegrations preexistingIntegrations).
Proof.
  unfold generate_settings, settings_events. destruct (0 <? length _)%nat;
    [| apply traces_at_ret].
  apply (traces_at_bind _ _ _ [_]); [apply traces_at_emit | intros _ w1 _].
  replace (map _ _)
    with (flat_map (fun integration =>
                      [settings_line preexistingIntegrations integration])
            (allIntegrations requestedIntegrations preexistingIntegrations))
    by (induction (allIntegrations _ _) as [| x xs IH]; [reflexivity | cbn; now rewrite IH]).
  apply traces_at_for_of. intros integration w'. unfold settings_line.
  destruct (has String.eqb integration preexistingIntegrations); apply traces_at_emit.
Qed.

(** The run up to the generators: the two folders cleaned, the
    integrations file written, the warnings logged. *)
Lemma generateSdk_body_cleanup (w : World) :
  generateSdk_body pnpApi requestedIntegrations preexistingIntegrations verbose configuration w
  = (generate_sdks pnpApi requestedIntegrations preexistingIntegrations verbose configuration ;;;
     generate_settings requestedIntegrations preexistingIntegrations)
      {| files := files_before_generation pnpApi requestedIntegrations preexistingIntegrations
                    (files w);
         log := log w ++ cleanup_events pnpApi configuration (files w) |}.
Proof.
  unfold generateSdk_body, generateSdk_from_target, clean_old_folder, clean_target_folder,
    persist_integrations, files_before_generation, cleanup_events, files_after_old_folder,
    old_folder_removed.
  unfold bind at 1 2 3 4 5 6. unfold gets, id, emit, update_files, modify, ret. cbn [files log].
  destruct (existsSync (oldTargetFolder pnpApi) (files w)
            && negb (lstatSync_isSymbolicLink (oldTargetFolder pnpApi) (files w)));
    cbn [files log];
    match goal with
    | |- context [existsSync (targetFolder pnpApi) ?fs] =>
        destruct (existsSync (targetFolder pnpApi) fs)
    end;
    cbn [files log app]; rewrite <- ?app_assoc, ?app_nil_r; reflexivity.
Qed.

End RunFacts.

Section RunProperties.
Context `{Sdks}.
Variables (pnpApi : PnpApi) (integrations : AllIntegrations) (options : Options).

Let requested := requestedIntegrations integrations.
Let preexisting := preexistingIntegrations integrations.

(** A run and the events expected of it. *)
Lemma generateSdk_traces (w : World) :
  traces_at (generateSdk pnpApi integrations options) w
            (run_events pnpApi requested preexisting (verbose options)
               (configuration options) (files w)).
Proof.
  unfold generateSdk, run_events. fold requested preexisting.
  unfold traces_at. rewrite generateSdk_body_cleanup.
  set (start := {| files := _; log := _ |}).
  destruct (traces_at_bind
              (generate_sdks pnpApi requested preexisting (verbose options)
                 (configuration options))
              (fun _ => generate_settings requested preexisting) start
              (generation_events pnpApi requested preexisting (verbose options)
                 (configuration options))
              (settings_events requested preexisting))
    as (events & Hlog & Hevents).
  - apply traces_generate_sdks.
  - intros _ w' _. apply traces_generate_settings.
  - exists (cleanup_events pnpApi (configuration options) (files w) ++ events).
    split; [rewrite Hlog; unfold start; cbn [log]; now rewrite app_assoc |].
    destruct (_ start).1; [now subst events | now apply prefix_app].
Qed.

(** X18. The events of a run, in order. A run that returns has logged: the
    warnings of the two clean-ups that took place; the timer of the
    generation; the default generator of each selected table; for each base
    SDK that is a dependency, in the order of [BASE_SDKS], its line of the
    report, its base generator and then its generator of each selected
    table; the report of the skipped SDKs; and, when there are integrations,
    the timer of the settings and one line for each integration. A run that
    a generator cuts short has logged a first part of that list. *)
Theorem generateSdk_events_in_order (w : World) :
  let run := generateSdk pnpApi integrations options w in
  let expected := run_events pnpApi requested preexisting (verbose options)
                    (configuration options) (files w) in
  exists events,
    log run.2 = log w ++ events
    /\ events `prefix_of` expected
    /\ (run.1 = Return tt -> events = expected).
Proof.
  cbv zeta. destruct (generateSdk_traces w) as (events & Hlog & Hevents).
  exists events. split; [exact Hlog |].
  destruct (generateSdk pnpApi integrations options w).1 as [[] | e].
  - split; [now subst events | auto].
  - split; [exact Hevents | discriminate].
Qed.

Lemma elem_of_integrationSdks (sdks : list IntegrationSdk) :
  In sdks (integrationSdks requested preexisting) ->
  exists integration, supported integration
                      /\ (integration ∈ requested \/ integration ∈ preexisting).
Proof.
  unfold integrationSdks. intros Hin. apply in_flat_map in Hin as ([integration table] & Hentry & Hin).
  cbn [fst snd] in Hin. destruct (has String.eqb integration _) eqn:Hhas; [| destruct Hin].
  exists integration. split.
  - unfold supported. apply list_elem_of_In in Hentry.
    apply (list_elem_of_fmap_2 fst) in Hentry. exact Hentry.
  - rewrite (has_elem_of _ String_eqb_spec) in Hhas. unfold allIntegrations in Hhas.
    rewrite (elem_of_Set_from _ String_eqb_spec) in Hhas. now apply elem_of_app in Hhas.
Qed.

(** Where the calls of generators are among the expected events. *)
Lemma generator_calls_in_run_events (fs : FS) (e : event) :
  e ∈ run_events pnpApi requested preexisting (verbose options) (configuration options) fs ->
  match e with
  | base_wrapper_called p =>
      p ∈ BASE_SDKS.*1 /\ is_Some (packageDependencies (topLevelInformation pnpApi) !! p)
  | integration_wrapper_called p =>
      p ∈ BASE_SDKS.*1 /\ is_Some (packageDependencies (topLevelInformation pnpApi) !! p)
      /\ exists integration, supported integration
                             /\ (integration ∈ requested \/ integration ∈ preexisting)
  | default_wrapper_called =>
      exists integration, supported integration
                          /\ (integration ∈ requested \/ integration ∈ preexisting)
  | _ => True
  end.
Proof.
  destruct e as [text | text | label | | p | p]; try (intros _; exact I).
  - (* the default generator of a table *)
    unfold run_events, cleanup_events, generation_events, settings_events, skipped_report.
    rewrite !elem_of_app. intros [[Hin | Hin] | [[Hin | [Hin | [Hin | Hin]]] | Hin]].
    + destruct (old_folder_removed _ _); apply list_elem_of_In in Hin; cbn in Hin; intuition discriminate.
    + destruct (existsSync _ _); apply list_elem_of_In in Hin; cbn in Hin; intuition discriminate.
    + apply list_elem_of_In in Hin; cbn in Hin; intuition discriminate.
    + apply list_elem_of_In, in_flat_map in Hin as (sdks & Hsdks & _).
      now apply elem_of_integrationSdks in Hsdks.
    + apply list_elem_of_In, in_flat_map in Hin as ([pkg generate] & _ & Hin).
      unfold base_events in Hin. cbn [fst] in Hin.
      destruct (bool_decide _); [| destruct Hin].
      apply in_app_iff in Hin as [Hin | Hin]; [cbn in Hin; intuition discriminate |].
      apply in_flat_map in Hin as (sdks & _ & Hin). unfold integration_events in Hin.
      destruct (List.find _ sdks) as [[g | q [g |]] |]; cbn in Hin; intuition discriminate.
    + destruct (0 <? _)%nat; [| now apply elem_of_nil in Hin].
      destruct (verbose options); apply list_elem_of_In in Hin.
      * apply in_map_iff in Hin as (x & Hx & _). discriminate Hx.
      * cbn in Hin. intuition discriminate.
    + destruct (0 <? _)%nat; [| now apply elem_of_nil in Hin].
      apply elem_of_cons in Hin as [Hin | Hin]; [discriminate |].
      apply list_elem_of_In, in_map_iff in Hin as (x & Hx & _). discriminate Hx.
  - (* a base generator *)
    unfold run_events, cleanup_events, generation_events, settings_events, skipped_report.
    rewrite !elem_of_app. intros [[Hin | Hin] | [[Hin | [Hin | [Hin | Hin]]] | Hin]].
    + destruct (old_folder_removed _ _); apply list_elem_of_In in Hin; cbn in Hin; intuition discriminate.
    + destruct (existsSync _ _); apply list_elem_of_In in Hin; cbn in Hin; intuition discriminate.
    + apply list_elem_of_In in Hin; cbn in Hin; intuition discriminate.
    + apply list_elem_of_In, in_flat_map in Hin as (sdks & _ & Hin). unfold default_events in Hin.
      destruct (List.find _ sdks) as [[[g |] | q g] |]; cbn in Hin; intuition discriminate.
    + apply list_elem_of_In, in_flat_map in Hin as ([pkg generate] & Hentry & Hin).
      unfold base_events in Hin. cbn [fst] in Hin.
      destruct (bool_decide _) eqn:Hdep; [| destruct Hin].
      apply in_app_iff in Hin as [Hin | Hin].
      * cbn in Hin. destruct Hin as [Hin | [Hin | []]]; [discriminate |].
        injection Hin as <-. split; [| now apply bool_decide_eq_true in Hdep].
        apply list_elem_of_In in Hentry. now apply (list_elem_of_fmap_2 fst) in Hentry.
      * apply in_flat_map in Hin as (sdks & _ & Hin). unfold integration_events in Hin.
        destruct (List.find _ sdks) as [[g | q [g |]] |]; cbn in Hin; intuition discriminate.
    + destruct (0 <? _)%nat; [| now apply elem_of_nil in Hin].
      destruct (verbose options); apply list_elem_of_In in Hin.
      * apply in_map_iff in Hin as (x & Hx & _). discriminate Hx.
      * cbn in Hin. intuition discriminate.
    + destruct (0 <? _)%nat; [| now apply elem_of_nil in Hin].
      apply elem_of_cons in Hin as [Hin | Hin]; [discriminate |].
      apply list_elem_of_In, in_map_iff in Hin as (x & Hx & _). discriminate Hx.
  - (* an integration generator *)
    unfold run_events, cleanup_events, generation_events, settings_events, skipped_report.
    rewrite !elem_of_app. intros [[Hin | Hin] | [[Hin | [Hin | [Hin | Hin]]] | Hin]].
    + destruct (old_folder_removed _ _); apply list_elem_of_In in Hin; cbn in Hin; intuition discriminate.
    + destruct (existsSync _ _); apply list_elem_of_In in Hin; cbn in Hin; intuition discriminate.
    + apply list_elem_of_In in Hin; cbn in Hin; intuition discriminate.
    + apply list_elem_of_In, in_flat_map in Hin as (sdks & _ & Hin). unfold default_events in Hin.
      destruct (List.find _ sdks) as [[[g |] | q g] |]; cbn in Hin; intuition discriminate.
    + apply list_elem_of_In, in_flat_map in Hin as ([pkg generate] & Hentry & Hin).
      unfold base_events in Hin. cbn [fst] in Hin.
      destruct (bool_decide _) eqn:Hdep; [| destruct Hin].
      apply in_app_iff in Hin as [Hin | Hin]; [cbn in Hin; intuition discriminate |].
      apply in_flat_map in Hin as (sdks & Hsdks & Hin). unfold integration_events in Hin.
      destruct (List.find _ sdks) as [[g | q [g |]] |]; cbn in Hin; try (intuition discriminate).
      destruct Hin as [Hin | []]. injection Hin as <-.
      split; [| split; [now apply bool_decide_eq_true in Hdep
                       | now apply elem_of_integrationSdks in Hsdks]].
      apply list_elem_of_In in Hentry. now apply (list_elem_of_fmap_2 fst) in Hentry.
    + destruct (0 <? _)%nat; [| now apply elem_of_nil in Hin].
      destruct (verbose options); apply list_elem_of_In in Hin.
      * apply in_map_iff in Hin as (x & Hx & _). discriminate Hx.
      * cbn in Hin. intuition discriminate.
    + destruct (0 <? _)%nat; [| now apply elem_of_nil in Hin].
      apply elem_of_cons in Hin as [Hin | Hin]; [discriminate |].
      apply list_elem_of_In, in_map_iff in Hin as (x & Hx & _). discriminate Hx.
Qed.

(** X19. What a run may call. In every run, finished or cut short, a base
    generator is called only for a package of [BASE_SDKS] that is a
    dependency of the top level; an integration generator only for such a
    package, and a default or integration generator only when a supported
    integration is requested or was recorded before. With no integration
    at all, the run calls base generators only. *)
Theorem generateSdk_calls_what_is_needed (w : World) :
  exists events,
    log (generateSdk pnpApi integrations options w).2 = log w ++ events
    /\ (forall p, base_wrapper_called p ∈ events \/ integration_wrapper_called p ∈ events ->
          p ∈ BASE_SDKS.*1
          /\ is_Some (packageDependencies (topLevelInformation pnpApi) !! p))
    /\ ((default_wrapper_called ∈ events \/ exists p, integration_wrapper_called p ∈ events) ->
        exists integration,
          supported integration /\ (integration ∈ requested \/ integration ∈ preexisting)).
Proof.
  destruct (generateSdk_traces w) as (events & Hlog & Hevents).
  assert (Hprefix : events `prefix_of`
                      run_events pnpApi requested preexisting (verbose options)
                        (configuration options) (files w)).
  { destruct (_ w).1; [now subst events | assumption]. }
  assert (Hin : forall e, e ∈ events ->
                  e ∈ run_events pnpApi requested preexisting (verbose options)
                        (configuration options) (files w)).
  { intros e He. destruct Hprefix as [rest ->]. apply elem_of_app. now left. }
  exists events. split; [exact Hlog |]. split.
  - intros p [Hp | Hp]; apply Hin, generator_calls_in_run_events in Hp; tauto.
  - intros [Hd | [p Hp]].
    + now apply Hin, generator_calls_in_run_events in Hd.
    + apply Hin, generator_calls_in_run_events in Hp. tauto.
Qed.

End RunProperties.

(** ** generateSdk: the integrations it is given *)

Lemma fold_add_extends {A : Type} (same : A -> A -> bool) (xs acc : list A) :
  exists rest, fold_left (add same) xs acc = acc ++ rest.
Proof.
  revert acc. induction xs as [| x xs IH]; intros acc; cbn [fold_left].
  - exists []. now rewrite app_nil_r.
  - destruct (IH (add same acc x)) as [rest ->]. unfold add.
    destruct (has same x acc); [now exists rest |].
    exists ([x] ++ rest). now rewrite app_assoc.
Qed.

(** X20. The integrations of a run are the requested ones and the recorded
    ones together, each once, the requested ones first and in their order. *)
Theorem allIntegrations_union (requested preexisting : list string) :
  let all := allIntegrations requested preexisting in
  NoDup all
  /\ (forall x, x ∈ all <-> x ∈ requested \/ x ∈ preexisting)
  /\ exists rest, all = Set_from String.eqb requested ++ rest.
Proof.
  cbv zeta. unfold allIntegrations. split; [| split].
  - apply NoDup_Set_from, String_eqb_spec.
  - intros x. now rewrite (elem_of_Set_from _ String_eqb_spec), elem_of_app.
  - unfold Set_from. rewrite fold_left_app. apply fold_add_extends.
Qed.

Section PersistedRecord.
Context `{Sdks}.
Variables (pnpApi : PnpApi) (given : AllIntegrations) (options : Options).

Let requested := requestedIntegrations given.
Let preexisting := preexistingIntegrations given.

(** X21. The record is written first. Whatever the generators do, they
    start on a filesystem on which the two folders are cleaned and the
    integrations file is written; on a filesystem that gives back what is
    written, that file reads as the banner and the printed document of the
    integrations of the run. *)
Theorem generators_start_after_the_record (w : World) :
  reads_back_the_change ->
  let before := files_before_generation pnpApi requested preexisting (files w) in
  generateSdk pnpApi given options w
  = (generate_sdks pnpApi requested preexisting (verbose options) (configuration options) ;;;
     generate_settings requested preexisting)
      {| files := before;
         log := log w ++ cleanup_events pnpApi (configuration options) (files w) |}
  /\ readFilePromise (ppath_join [targetFolder pnpApi; INTEGRATIONS_FILE]) before
     = Return (BANNER +:+ stringifySyml (persisted_document requested preexisting)).
Proof.
  intros Hfs. cbv zeta. split.
  - unfold generateSdk. apply generateSdk_body_cleanup.
  - unfold files_before_generation, persist. cbv zeta. apply Hfs.
Qed.

(** X22. A run does not validate its integrations. An unsupported
    identifier among the requested or recorded ones goes into the document
    the run persists, and [load] rejects that document with its usage
    error: the file the run leaves cannot be loaded again. *)
Theorem generateSdk_persists_unvalidated (x : string) (this : IntegrationsFile) :
  x ∈ requested \/ x ∈ preexisting -> ~ supported x ->
  get "integrations" (persisted_document requested preexisting)
    = Array (map Str (allIntegrations requested preexisting))
  /\ Str x ∈ map Str (allIntegrations requested preexisting)
  /\ exists e, (load (persisted_document requested preexisting) this).1 = Throw e
               /\ class e = UsageErrorClass.
Proof.
  intros Hx Hnot.
  assert (Hall : x ∈ allIntegrations requested preexisting).
  { unfold allIntegrations. now rewrite (elem_of_Set_from _ String_eqb_spec), elem_of_app. }
  assert (Hdoc : persisted_document requested preexisting
                 = Object [("integrations",
                            Array (map Str (allIntegrations requested preexisting)))]).
  { unfold persisted_document, persisted_data, exportTo. cbn [integrations set_integrations].
    rewrite length_map. destruct (allIntegrations requested preexisting);
      [now apply elem_of_nil in Hall | reflexivity]. }
  rewrite Hdoc. split; [reflexivity |]. split.
  - now apply list_elem_of_In, in_map, list_elem_of_In.
  - rewrite load_object by reflexivity.
    change (get "integrations" (Object [("integrations", ?a)])) with a.
    cbn [Array_isArray elements fst]. rewrite Set_from_Str.
    rewrite (Set_from_NoDup _ String_eqb_spec)
      by (unfold allIntegrations; apply NoDup_Set_from, String_eqb_spec).
    unfold validateIntegrations. rewrite unsupportedIntegrations_Str, length_map.
    destruct (List.filter _ _) as [| y ys] eqn:Hfilter.
    + exfalso. apply (proj1 (filter_nil_iff _ _) Hfilter) in Hall.
      apply negb_false_iff, supported_has in Hall. contradiction.
    + eexists. split; reflexivity.
Qed.

End PersistedRecord.

Lemma generators_start_after_the_record_witness :
  let integrations := {| requestedIntegrations := ["vscode"]; preexistingIntegrations := [] |} in
  let options := {| onlyBase := false; verbose := false; configuration := Sample.plain |} in
  let w := Sample.world Sample.empty_fs in
  let before := @files_before_generation Sample.host Sample.project ["vscode"] [] (files w) in
  @generateSdk Sample.host Sample.sdks Sample.project integrations options w
  = (@generate_sdks Sample.host Sample.sdks Sample.project ["vscode"] [] false Sample.plain ;;;
     @generate_settings Sample.host ["vscode"] [])
      {| files := before;
         log := log w ++ @cleanup_events Sample.host Sample.project Sample.plain (files w) |}
  /\ Sample.read "/project/.yarn/sdks/integrations.yml" before
     = Return (BANNER +:+ Sample.print (persisted_document ["vscode"] [])).
Proof.
  apply (@generators_start_after_the_record Sample.host Sample.sdks Sample.project
           {| requestedIntegrations := ["vscode"]; preexistingIntegrations := [] |}
           {| onlyBase := false; verbose := false; configuration := Sample.plain |}
           (Sample.world Sample.empty_fs) sample_reads_back).
Defined.

Lemma generateSdk_persists_unvalidated_witness :
  get "integrations" (persisted_document ["emacs"] ["vim"])
    = Array (map Str (allIntegrations ["emacs"] ["vim"]))
  /\ Str "emacs" ∈ map Str (allIntegrations ["emacs"] ["vim"])
  /\ exists e, (@load Sample.host Sample.sdks (persisted_document ["emacs"] ["vim"])
                  new_IntegrationsFile).1 = Throw e
               /\ class e = UsageErrorClass.
Proof.
  apply (@generateSdk_persists_unvalidated Sample.host Sample.sdks
           {| requestedIntegrations := ["emacs"]; preexistingIntegrations := ["vim"] |}
           "emacs" new_IntegrationsFile).
  - left. now left.
  - rewrite sample_supported. intros [Hvim | Hvscode]; discriminate.
Defined.

(** ** exportTo and load, without a filesystem *)

(** X23. [load] undoes [exportTo]. For a file whose set is made of supported
    identifiers, each once, the object [exportTo] fills from an empty one is
    taken by [load] into a fresh file, which then holds the same set in the
    same order; this needs no filesystem and no parser. *)
Theorem load_after_exportTo `{Sdks} (names : list string) (this : IntegrationsFile) :
  NoDup names -> (forall x, x ∈ names -> supported x) ->
  integrations this = map Str names ->
  load (Object (exportTo this [])) new_IntegrationsFile
  = (Return tt, {| integrations := integrations this; raw := Object (exportTo this []) |}).
Proof.
  intros Hnd Hall Hset.
  replace (Object (exportTo this [])) with (document_of names)
    by (unfold document_of, persisted_data, exportTo; cbn [integrations]; now rewrite Hset).
  rewrite load_document_of_eq by assumption. rewrite Hset. now destruct names.
Qed.

Lemma load_after_exportTo_witness :
  let this := {| integrations := [Str "vscode"; Str "vim"];
                 raw := Object [("version", Str "2")] |} in
  @load Sample.host Sample.sdks (Object (exportTo this [])) new_IntegrationsFile
  = (Return tt, {| integrations := integrations this; raw := Object (exportTo this []) |}).
Proof.
  apply (@load_after_exportTo Sample.host Sample.sdks ["vscode"; "vim"]
           {| integrations := [Str "vscode"; Str "vim"]; raw := Object [("version", Str "2")] |}).
  - apply NoDup_cons. split; [| apply NoDup_singleton].
    intros Hin. apply list_elem_of_singleton in Hin. discriminate.
  - apply sample_supported_names. rewrite !elem_of_cons. tauto.
  - reflexivity.
Defined.
